(** * Reconnection strategies of pika ([pika/reconnection_strategies.py])

    A shallow embedding of the three strategy classes and of the collaborators
    they talk to (the process-wide random source, the logging sink and the
    timer facility of the connection), followed by the properties of the
    back-off algorithm and of the lifecycle hooks.

    Numbers are the code's: delays, multiplier and jitter are Python floats,
    that is IEEE 754 binary64 values, embedded as Rocq's primitive [float];
    the attempt counter is a Python integer, embedded as [Z]. The defaults of
    [__init__] are floats; what the code does when it is given integers
    instead is in module [Py]. *)

From Stdlib Require Import ZArith List String Bool Lia.
From Stdlib Require Import Floats.
Import ListNotations.

Local Open Scope Z_scope.

(** ** Collaborators and process state *)

(** The argument [err] of [on_connect_attempt_failure]: opaque diagnostic data,
    only ever handed to the logging sink. *)
Inductive Exn : Type :=
| Exception (msg : string).

(** What the strategy uses of a connection: the [parameters] attribute (for the
    log message); [add_timeout] and [_reconnect] are below. *)
Record Connection : Type := {
  parameters : string
}.

(** The callable handed to [add_timeout]: the bound method [conn._reconnect]. *)
Inductive Callback : Type :=
| _reconnect (conn : Connection).

Record Timer : Type := {
  timer_owner : Connection;
  timer_delay : float;
  timer_callback : Callback
}.

Inductive LogArg : Type :=
| ArgInt (n : Z)
| ArgFloat (x : float)
| ArgStr (s : string)
| ArgConn (c : Connection)
| ArgExn (e : Exn).

Inductive LogLevel : Type := INFO | WARNING.

Record LogRecord : Type := {
  log_level : LogLevel;
  log_format : string;
  log_args : list LogArg
}.

(** Everything a hook can read or write outside of [self]:
    - [_active]: the class attribute [ReconnectionStrategy._active], one cell
      for the whole process;
    - [draws], [drawn]: the module-level [random()], as the sequence of values
      it is going to return and the number of values returned so far;
    - [timeouts]: the calls [conn.add_timeout(delay, callback)] received by the
      timer facility, oldest first;
    - [log]: the records handed to [pika.log], oldest first. *)
Record World : Type := {
  _active : bool;
  draws : nat -> float;
  drawn : nat;
  timeouts : list Timer;
  log : list LogRecord
}.

Definition with_active (v : bool) (w : World) : World :=
  {| _active := v; draws := draws w; drawn := drawn w;
     timeouts := timeouts w; log := log w |}.

Definition with_drawn (n : nat) (w : World) : World :=
  {| _active := _active w; draws := draws w; drawn := n;
     timeouts := timeouts w; log := log w |}.

Definition with_timeouts (ts : list Timer) (w : World) : World :=
  {| _active := _active w; draws := draws w; drawn := drawn w;
     timeouts := ts; log := log w |}.

Definition with_log (l : list LogRecord) (w : World) : World :=
  {| _active := _active w; draws := draws w; drawn := drawn w;
     timeouts := timeouts w; log := l |}.

(** ** Computations: state passing with an exceptional outcome *)

Inductive Outcome (A : Type) : Type :=
| Returned (a : A) (w : World)
| Raised (e : Exn) (w : World).

Arguments Returned {A} a w.
Arguments Raised {A} e w.

Definition M (A : Type) : Type := World -> Outcome A.

Definition ret {A : Type} (a : A) : M A := fun w => Returned a w.

Definition bind {A B : Type} (m : M A) (k : A -> M B) : M B :=
  fun w =>
    match m w with
    | Returned a w' => k a w'
    | Raised e w' => Raised e w'
    end.

Notation "x <- m ;; k" := (bind m (fun x => k))
  (at level 61, m at next level, right associativity).
Notation "' pat <- m ;; k" := (bind m (fun x => match x with pat => k end))
  (at level 61, pat pattern, m at next level, right associativity).
Notation "m ;;; k" := (bind m (fun _ => k))
  (at level 61, right associativity).

(** The world an outcome ends in, and whether it is a normal return. *)
Definition final_world {A : Type} (o : Outcome A) : World :=
  match o with
  | Returned _ w => w
  | Raised _ w => w
  end.

Definition returned {A : Type} (o : Outcome A) : option A :=
  match o with
  | Returned a _ => Some a
  | Raised _ _ => None
  end.

(** [random()]: the next value of the process-wide source. *)
Definition random : M float :=
  fun w => Returned (draws w (drawn w)) (with_drawn (S (drawn w)) w).

(** Modelled from the spec: [pika.log.info] and [pika.log.warning] are not part
    of the sources at hand; they are reporting channels from which no return
    value is needed. A call appends one record to the log. *)
Definition info (fmt : string) (args : list LogArg) : M unit :=
  fun w =>
    Returned tt
      (with_log (log w ++ [{| log_level := INFO; log_format := fmt; log_args := args |}]) w).

Definition warning (fmt : string) (args : list LogArg) : M unit :=
  fun w =>
    Returned tt
      (with_log (log w ++ [{| log_level := WARNING; log_format := fmt; log_args := args |}]) w).

(** Modelled from the spec: [conn.add_timeout(delay_seconds, callback)] belongs
    to the connection class, which is not part of the sources at hand; it
    schedules a one-shot timer and returns without blocking. *)
Definition add_timeout (conn : Connection) (delay : float) (cb : Callback) : M unit :=
  fun w =>
    Returned tt
      (with_timeouts
         (timeouts w ++ [{| timer_owner := conn; timer_delay := delay; timer_callback := cb |}])
         w).

(** Python's builtin [min] on two arguments keeps the first one unless the
    second compares strictly smaller. *)
Definition py_min (a b : float) : float :=
  if (b <? a)%float then b else a.

(** ** The classes *)

(** [class ReconnectionStrategy(object)]: the interface and its defaults. *)
Module ReconnectionStrategy.

Definition can_reconnect : bool := false.

Definition is_active {Self : Type} (self : Self) : M bool :=
  fun w => Returned (_active w) w.

Definition set_active {Self : Type} (self : Self) (value : bool) : M unit :=
  fun w => Returned tt (with_active value w).

Definition on_connect_attempt {Self : Type} (self : Self) (conn : Connection) : M Self :=
  ret self.

Definition on_connect_attempt_failure {Self : Type}
    (self : Self) (conn : Connection) (err : Exn) : M Self :=
  ret self.

Definition on_transport_connected {Self : Type} (self : Self) (conn : Connection) : M Self :=
  ret self.

Definition on_transport_disconnected {Self : Type} (self : Self) (conn : Connection) : M Self :=
  ret self.

Definition on_connection_open {Self : Type} (self : Self) (conn : Connection) : M Self :=
  ret self.

Definition on_connection_closed {Self : Type} (self : Self) (conn : Connection) : M Self :=
  ret self.

End ReconnectionStrategy.

(** [class NullReconnectionStrategy(ReconnectionStrategy): pass] *)
Module NullReconnectionStrategy.

(** An instance has no attribute of its own. *)
Inductive t : Type := instance.

Definition can_reconnect : bool := ReconnectionStrategy.can_reconnect.

End NullReconnectionStrategy.

(** [class SimpleReconnectionStrategy(ReconnectionStrategy)], on float
    attributes. *)
Module SimpleReconnectionStrategy.

Record t : Type := {
  initial_retry_delay : float;
  multiplier : float;
  max_delay : float;
  jitter : float;
  current_delay : float;
  attempts_since_last_success : Z
}.

Definition can_reconnect : bool := true.

Definition set_current_delay (x : float) (self : t) : t :=
  {| initial_retry_delay := initial_retry_delay self;
     multiplier := multiplier self;
     max_delay := max_delay self;
     jitter := jitter self;
     current_delay := x;
     attempts_since_last_success := attempts_since_last_success self |}.

Definition set_attempts_since_last_success (n : Z) (self : t) : t :=
  {| initial_retry_delay := initial_retry_delay self;
     multiplier := multiplier self;
     max_delay := max_delay self;
     jitter := jitter self;
     current_delay := current_delay self;
     attempts_since_last_success := n |}.

Definition _reset (self : t) : t :=
  set_attempts_since_last_success 0
    (set_current_delay (initial_retry_delay self) self).

(** [__init__]: the four parameters are stored, then [_reset] creates the two
    state attributes (the values they are built with here are overwritten). *)
Definition __init__ (initial_retry_delay multiplier max_delay jitter : float) : t :=
  _reset
    {| initial_retry_delay := initial_retry_delay;
       multiplier := multiplier;
       max_delay := max_delay;
       jitter := jitter;
       current_delay := initial_retry_delay;
       attempts_since_last_success := 0 |}.

(** The default arguments of [__init__]. *)
Definition default : t := __init__ 1.0 2.0 30.0 0.5.

Definition on_connect_attempt (self : t) (conn : Connection) : M t :=
  ret (set_attempts_since_last_success (attempts_since_last_success self + 1) self).

Definition on_connect_attempt_failure (self : t) (conn : Connection) (err : Exn) : M t :=
  warning "Connection failure (attempt %s): %s"
    [ArgInt (attempts_since_last_success self); ArgExn err] ;;;
  ret self.

Definition on_connection_open (self : t) (conn : Connection) : M t :=
  ret (_reset self).

(** Returns the new delay together with the updated instance. *)
Definition new_delay (self : t) : M (float * t) :=
  r <- random ;;
  let t := (current_delay self * ((r * jitter self) + 1) * multiplier self)%float in
  let self := set_current_delay (py_min (max_delay self) t) self in
  ret (current_delay self, self).

Definition on_connection_closed (self : t) (conn : Connection) : M t :=
  active <- ReconnectionStrategy.is_active self ;;
  if negb active then ret self
  else
    ' (t, self) <- new_delay self ;;
    info "%s retrying %r in %r seconds (%r attempts)"
      [ArgStr "SimpleReconnectionStrategy"; ArgStr (parameters conn); ArgFloat t;
       ArgInt (attempts_since_last_success self)] ;;;
    add_timeout conn t (_reconnect conn) ;;;
    ret self.

End SimpleReconnectionStrategy.

(** Short names for the two concrete classes. *)
Module Null := NullReconnectionStrategy.
Module Simple := SimpleReconnectionStrategy.

(** ** The interface, as the owning connection sees it *)

(** The six lifecycle hooks and the capability flag. A hook returns the
    instance it was called on, as the call left it. *)
Class Strategy (Self : Type) : Type := {
  can_reconnect : Self -> bool;
  on_connect_attempt : Self -> Connection -> M Self;
  on_connect_attempt_failure : Self -> Connection -> Exn -> M Self;
  on_transport_connected : Self -> Connection -> M Self;
  on_transport_disconnected : Self -> Connection -> M Self;
  on_connection_open : Self -> Connection -> M Self;
  on_connection_closed : Self -> Connection -> M Self
}.

(** [NullReconnectionStrategy] inherits every method. *)
#[export] Instance Null_Strategy : Strategy NullReconnectionStrategy.t := {
  can_reconnect := fun _ => NullReconnectionStrategy.can_reconnect;
  on_connect_attempt := ReconnectionStrategy.on_connect_attempt;
  on_connect_attempt_failure := ReconnectionStrategy.on_connect_attempt_failure;
  on_transport_connected := ReconnectionStrategy.on_transport_connected;
  on_transport_disconnected := ReconnectionStrategy.on_transport_disconnected;
  on_connection_open := ReconnectionStrategy.on_connection_open;
  on_connection_closed := ReconnectionStrategy.on_connection_closed
}.

(** [SimpleReconnectionStrategy] overrides four hooks and inherits the two
    transport hooks. *)
#[export] Instance Simple_Strategy : Strategy SimpleReconnectionStrategy.t := {
  can_reconnect := fun _ => SimpleReconnectionStrategy.can_reconnect;
  on_connect_attempt := SimpleReconnectionStrategy.on_connect_attempt;
  on_connect_attempt_failure := SimpleReconnectionStrategy.on_connect_attempt_failure;
  on_transport_connected := ReconnectionStrategy.on_transport_connected;
  on_transport_disconnected := ReconnectionStrategy.on_transport_disconnected;
  on_connection_open := SimpleReconnectionStrategy.on_connection_open;
  on_connection_closed := SimpleReconnectionStrategy.on_connection_closed
}.

(** A strategy object of either concrete class. *)
Inductive AnyStrategy : Type :=
| OfNull (s : NullReconnectionStrategy.t)
| OfSimple (s : SimpleReconnectionStrategy.t).

Definition fmap {A B : Type} (f : A -> B) (m : M A) : M B :=
  a <- m ;; ret (f a).

Definition dispatch (F : forall Self : Type, Strategy Self -> Self -> M Self)
    (s : AnyStrategy) : M AnyStrategy :=
  match s with
  | OfNull n => fmap OfNull (F _ Null_Strategy n)
  | OfSimple x => fmap OfSimple (F _ Simple_Strategy x)
  end.

#[export] Instance Any_Strategy : Strategy AnyStrategy := {
  can_reconnect := fun s =>
    match s with
    | OfNull n => can_reconnect n
    | OfSimple x => can_reconnect x
    end;
  on_connect_attempt := fun s conn =>
    dispatch (fun _ _ self => on_connect_attempt self conn) s;
  on_connect_attempt_failure := fun s conn err =>
    dispatch (fun _ _ self => on_connect_attempt_failure self conn err) s;
  on_transport_connected := fun s conn =>
    dispatch (fun _ _ self => on_transport_connected self conn) s;
  on_transport_disconnected := fun s conn =>
    dispatch (fun _ _ self => on_transport_disconnected self conn) s;
  on_connection_open := fun s conn =>
    dispatch (fun _ _ self => on_connection_open self conn) s;
  on_connection_closed := fun s conn =>
    dispatch (fun _ _ self => on_connection_closed self conn) s
}.

(** One invocation of a hook by the connection. *)
Inductive Hook : Type :=
| ConnectAttempt (conn : Connection)
| ConnectAttemptFailure (conn : Connection) (err : Exn)
| TransportConnected (conn : Connection)
| TransportDisconnected (conn : Connection)
| ConnectionOpen (conn : Connection)
| ConnectionClosed (conn : Connection).

Definition invoke {Self : Type} `{Strategy Self} (h : Hook) (self : Self) : M Self :=
  match h with
  | ConnectAttempt conn => on_connect_attempt self conn
  | ConnectAttemptFailure conn err => on_connect_attempt_failure self conn err
  | TransportConnected conn => on_transport_connected self conn
  | TransportDisconnected conn => on_transport_disconnected self conn
  | ConnectionOpen conn => on_connection_open self conn
  | ConnectionClosed conn => on_connection_closed self conn
  end.

(** A sequence of invocations on one instance; an exception ends it. *)
Fixpoint invoke_all {Self : Type} `{Strategy Self} (hs : list Hook) (self : Self) : M Self :=
  match hs with
  | [] => ret self
  | h :: hs' => self' <- invoke h self ;; invoke_all hs' self'
  end.

(** [n] successive calls of [on_connection_closed] with the same connection. *)
Fixpoint closures (n : nat) (self : Simple.t) (conn : Connection) : M Simple.t :=
  match n with
  | O => ret self
  | S n' =>
      self' <- Simple.on_connection_closed self conn ;;
      closures n' self' conn
  end.

(** The delays of the timers requested so far, oldest first. *)
Definition delays (w : World) : list float := map timer_delay (timeouts w).


(** ** The recurrence of the specification

    [next = current_delay * ((draw * jitter) + 1) * multiplier], then
    [min(max_delay, next)]: one float to the next, with no state, no log and no
    timer. *)
Definition reference_next (multiplier max_delay jitter current_delay draw : float) : float :=
  let next := (current_delay * ((draw * jitter) + 1) * multiplier)%float in
  py_min max_delay next.

Fixpoint reference_delays (multiplier max_delay jitter current_delay : float)
    (ds : list float) : list float :=
  match ds with
  | [] => []
  | d :: ds' =>
      let next := reference_next multiplier max_delay jitter current_delay d in
      next :: reference_delays multiplier max_delay jitter next ds'
  end.

(** The next [n] values [random()] is going to return. *)
Definition upcoming (w : World) (n : nat) : list float :=
  map (draws w) (seq (drawn w) n).

(** Multiplying by [3.0] and capping at [30.0], [n] times. *)
Fixpoint tripled (n : nat) (current_delay : float) : list float :=
  match n with
  | O => []
  | S n' =>
      let next := py_min 30.0 (current_delay * 3.0)%float in
      next :: tripled n' next
  end.

(** A world for the examples: nothing logged or scheduled yet, [random()]
    always returning [draw]. *)
Definition fresh_world (active : bool) (draw : float) : World :=
  {| _active := active; draws := fun _ => draw; drawn := O;
     timeouts := []; log := [] |}.

Definition some_connection : Connection := {| parameters := "localhost:5672" |}.

(** ** Binary64 values

    A finite binary64 number is [m * 2 ^ e] for a mantissa [m] and an exponent
    [e]; [scaled m e b] is that number counted in units of [2 ^ b], an integer
    as soon as [b <= e]. *)
Definition scaled (m e b : Z) : Z := m * 2 ^ (e - b).

(** The floats [1.0] and [0.0], as the specification of the arithmetic sees
    them. *)
Definition SFone : spec_float := S754_finite false 4503599627370496 (-52).
Definition SFzero : spec_float := S754_zero false.

(** The floats [2.0], [3.0] and [1.5], and doubling: the next exponent, or
    infinity past the last one. *)
Definition SFtwo : spec_float := S754_finite false 4503599627370496 (-51).
Definition SFthree : spec_float := S754_finite false 6755399441055744 (-51).
Definition SFthree_halves : spec_float := S754_finite false 6755399441055744 (-52).

Definition SFdouble (x : spec_float) : spec_float :=
  match x with
  | S754_finite s m e =>
      if e + 1 <=? emax - prec then S754_finite s m (e + 1) else S754_infinity s
  | _ => x
  end.

(** ** Counting invocations and records *)

Definition is_connect_attempt (h : Hook) : bool :=
  match h with ConnectAttempt _ => true | _ => false end.


Definition is_connection_open (h : Hook) : bool :=
  match h with ConnectionOpen _ => true | _ => false end.


(** How many invocations of a sequence are of the given kind. *)
Definition count (kind : Hook -> bool) (hs : list Hook) : nat :=
  List.length (filter kind hs).

(** The invocations that follow the last [on_connection_open] of a sequence
    (the whole sequence when it has none). *)
Fixpoint after_last_open (hs : list Hook) : list Hook :=
  match hs with
  | [] => []
  | h :: hs' =>
      if existsb is_connection_open hs' then after_last_open hs'
      else if is_connection_open h then hs'
      else h :: hs'
  end.



(** [x <= l1 <= l2 <= ...] *)
Fixpoint nondecreasing (x : float) (l : list float) : Prop :=
  match l with
  | [] => True
  | y :: l' => (x <=? y)%float = true /\ nondecreasing y l'
  end.

(** With multiplier 2.0 and [max_delay] 30.0, the least delay that [n]
    closures can leave when they start from 1.0 or more. *)
Definition backoff_floor (n : nat) : float :=
  nth n [1.0; 2.0; 4.0; 8.0; 16.0]%float 30.0%float.

(** The delays announced at info level: the third argument of each
    ["%s retrying %r in %r seconds (%r attempts)"] record, oldest first. *)
Definition reported_delay (r : LogRecord) : list float :=
  match log_level r, log_args r with
  | INFO, [_; _; ArgFloat t; _] => [t]
  | _, _ => []
  end.

Definition reported_delays (l : list LogRecord) : list float :=
  flat_map reported_delay l.

(** ** Attributes that are Python numbers

    [__init__] stores its arguments as it receives them, integers included,
    and [new_delay] stores either the float it computed or [max_delay] itself.
    [SimpleReconnectionStrategy.t] above is the class on float attributes;
    module [Py] is the class on attributes that are integers or floats, with
    what Python's mixed arithmetic adds: an integer operand of a float
    multiplication is converted first, which rounds it to nearest and raises
    [OverflowError] when it is too large, and an integer is compared with a
    float by value. *)
Module Py.

Inductive Num : Type :=
| Int (n : Z)
| Float (x : float).

Definition OverflowError : Exn :=
  Exception "OverflowError: int too large to convert to float".

(** The conversion of an integer operand: the nearest float, ties to even;
    an error when that is beyond the largest float. *)
Definition float_of_int (n : Z) : Exn + float :=
  match binary_normalize prec emax n 0 false with
  | S754_infinity _ => inl OverflowError
  | x => inr (SF2Prim x)
  end.

(** Whether a number can be an operand of a float multiplication. *)
Definition fits (n : Num) : bool :=
  match n with
  | Float _ => true
  | Int k => match float_of_int k with inl _ => false | inr _ => true end
  end.

(** [x < n] for a float [x] and an integer [n]: by value, with no
    conversion. *)
Definition float_ltb_int (x : float) (n : Z) : bool :=
  match Prim2SF x with
  | S754_nan => false
  | S754_infinity s => s
  | S754_zero _ => 0 <? n
  | S754_finite s m e =>
      if 0 <=? e then cond_Zopp s (Zpos m * 2 ^ e) <? n
      else cond_Zopp s (Zpos m) <? n * 2 ^ (- e)
  end.

Definition float_ltb (x : float) (b : Num) : bool :=
  match b with
  | Float y => (x <? y)%float
  | Int n => float_ltb_int x n
  end.

(** [min(a, t)] for a float [t]: [a] itself, unconverted, unless [t < a]. *)
Definition py_min (a : Num) (t : float) : Num :=
  if float_ltb t a then Float t else a.

Record Timer : Type := {
  timer_owner : Connection;
  timer_delay : Num;
  timer_callback : Callback
}.

Inductive LogArg : Type :=
| ArgInt (n : Z)
| ArgNum (x : Num)
| ArgStr (s : string)
| ArgConn (c : Connection)
| ArgExn (e : Exn).

Record LogRecord : Type := {
  log_level : LogLevel;
  log_format : string;
  log_args : list LogArg
}.

Record World : Type := {
  _active : bool;
  draws : nat -> float;
  drawn : nat;
  timeouts : list Timer;
  log : list LogRecord
}.

Definition with_drawn (n : nat) (w : World) : World :=
  {| _active := _active w; draws := draws w; drawn := n;
     timeouts := timeouts w; log := log w |}.

Definition with_timeouts (ts : list Timer) (w : World) : World :=
  {| _active := _active w; draws := draws w; drawn := drawn w;
     timeouts := ts; log := log w |}.

Definition with_log (l : list LogRecord) (w : World) : World :=
  {| _active := _active w; draws := draws w; drawn := drawn w;
     timeouts := timeouts w; log := l |}.

Inductive Outcome (A : Type) : Type :=
| Returned (a : A) (w : World)
| Raised (e : Exn) (w : World).

Arguments Returned {A} a w.
Arguments Raised {A} e w.

Definition M (A : Type) : Type := World -> Outcome A.

Definition ret {A : Type} (a : A) : M A := fun w => Returned a w.

Definition bind {A B : Type} (m : M A) (k : A -> M B) : M B :=
  fun w =>
    match m w with
    | Returned a w' => k a w'
    | Raised e w' => Raised e w'
    end.

Definition random : M float :=
  fun w => Returned (draws w (drawn w)) (with_drawn (S (drawn w)) w).

(** A number as the operand of a float operation. *)
Definition as_float (n : Num) : M float :=
  fun w =>
    match n with
    | Float x => Returned x w
    | Int k =>
        match float_of_int k with
        | inl e => Raised e w
        | inr x => Returned x w
        end
    end.

(** The collaborators, modelled as for the float class. *)
Definition info (fmt : string) (args : list LogArg) : M unit :=
  fun w =>
    Returned tt
      (with_log (log w ++ [{| log_level := INFO; log_format := fmt; log_args := args |}]) w).

Definition warning (fmt : string) (args : list LogArg) : M unit :=
  fun w =>
    Returned tt
      (with_log (log w ++ [{| log_level := WARNING; log_format := fmt; log_args := args |}]) w).

Definition add_timeout (conn : Connection) (delay : Num) (cb : Callback) : M unit :=
  fun w =>
    Returned tt
      (with_timeouts
         (timeouts w ++ [{| timer_owner := conn; timer_delay := delay; timer_callback := cb |}])
         w).

Record t : Type := {
  initial_retry_delay : Num;
  multiplier : Num;
  max_delay : Num;
  jitter : Num;
  current_delay : Num;
  attempts_since_last_success : Z
}.

Definition set_current_delay (x : Num) (self : t) : t :=
  {| initial_retry_delay := initial_retry_delay self;
     multiplier := multiplier self;
     max_delay := max_delay self;
     jitter := jitter self;
     current_delay := x;
     attempts_since_last_success := attempts_since_last_success self |}.

Definition set_attempts_since_last_success (n : Z) (self : t) : t :=
  {| initial_retry_delay := initial_retry_delay self;
     multiplier := multiplier self;
     max_delay := max_delay self;
     jitter := jitter self;
     current_delay := current_delay self;
     attempts_since_last_success := n |}.

Definition _reset (self : t) : t :=
  set_attempts_since_last_success 0
    (set_current_delay (initial_retry_delay self) self).

Definition __init__ (initial_retry_delay multiplier max_delay jitter : Num) : t :=
  _reset
    {| initial_retry_delay := initial_retry_delay;
       multiplier := multiplier;
       max_delay := max_delay;
       jitter := jitter;
       current_delay := initial_retry_delay;
       attempts_since_last_success := 0 |}.

Definition on_connect_attempt (self : t) (conn : Connection) : M t :=
  ret (set_attempts_since_last_success (attempts_since_last_success self + 1) self).

Definition on_connect_attempt_failure (self : t) (conn : Connection) (err : Exn) : M t :=
  bind
    (warning "Connection failure (attempt %s): %s"
       [ArgInt (attempts_since_last_success self); ArgExn err])
    (fun _ => ret self).

Definition on_connection_open (self : t) (conn : Connection) : M t :=
  ret (_reset self).

(** [current_delay * ((random() * jitter) + 1) * multiplier]: the draw is a
    float, so every product is a float product, whose other operand is
    converted when it is an integer; [jitter] first, then [current_delay],
    then [multiplier]. The sum adds the integer 1, which converts to 1.0. *)
Definition new_delay (self : t) : M (Num * t) :=
  bind random (fun r =>
  bind (as_float (jitter self)) (fun j =>
  bind (as_float (current_delay self)) (fun c =>
  bind (as_float (multiplier self)) (fun m =>
    let t := (c * ((r * j) + 1) * m)%float in
    let self := set_current_delay (py_min (max_delay self) t) self in
    ret (current_delay self, self))))).

Definition on_connection_closed (self : t) (conn : Connection) : M t :=
  fun w =>
    if negb (_active w) then Returned self w
    else
      bind (new_delay self) (fun '(t, self) =>
      bind (info "%s retrying %r in %r seconds (%r attempts)"
              [ArgStr "SimpleReconnectionStrategy"; ArgStr (parameters conn); ArgNum t;
               ArgInt (attempts_since_last_success self)]) (fun _ =>
      bind (add_timeout conn t (_reconnect conn)) (fun _ =>
      ret self))) w.

Definition invoke (h : Hook) (self : t) : M t :=
  match h with
  | ConnectAttempt conn => on_connect_attempt self conn
  | ConnectAttemptFailure conn err => on_connect_attempt_failure self conn err
  | TransportConnected conn => ret self
  | TransportDisconnected conn => ret self
  | ConnectionOpen conn => on_connection_open self conn
  | ConnectionClosed conn => on_connection_closed self conn
  end.

Fixpoint invoke_all (hs : list Hook) (self : t) : M t :=
  match hs with
  | [] => ret self
  | h :: hs' => bind (invoke h self) (fun self' => invoke_all hs' self')
  end.

(** Whether the five numeric attributes can all be operands of a float
    multiplication. *)
Definition numbers_fit (self : t) : bool :=
  fits (initial_retry_delay self) && fits (multiplier self) && fits (max_delay self) &&
  fits (jitter self) && fits (current_delay self).

(** A world for the examples, as [fresh_world]. *)
Definition fresh_world (active : bool) (draw : float) : World :=
  {| _active := active; draws := fun _ => draw; drawn := O;
     timeouts := []; log := [] |}.

End Py.

(** The float class inside [Py]: an instance, a world and an outcome of the
    float class, read as ones of [Py]. *)
Definition py_instance (s : Simple.t) : Py.t :=
  {| Py.initial_retry_delay := Py.Float (Simple.initial_retry_delay s);
     Py.multiplier := Py.Float (Simple.multiplier s);
     Py.max_delay := Py.Float (Simple.max_delay s);
     Py.jitter := Py.Float (Simple.jitter s);
     Py.current_delay := Py.Float (Simple.current_delay s);
     Py.attempts_since_last_success := Simple.attempts_since_last_success s |}.

Definition py_timer (x : Timer) : Py.Timer :=
  {| Py.timer_owner := timer_owner x;
     Py.timer_delay := Py.Float (timer_delay x);
     Py.timer_callback := timer_callback x |}.

Definition py_log_arg (a : LogArg) : Py.LogArg :=
  match a with
  | ArgInt n => Py.ArgInt n
  | ArgFloat x => Py.ArgNum (Py.Float x)
  | ArgStr s => Py.ArgStr s
  | ArgConn c => Py.ArgConn c
  | ArgExn e => Py.ArgExn e
  end.

Definition py_log_record (r : LogRecord) : Py.LogRecord :=
  {| Py.log_level := log_level r;
     Py.log_format := log_format r;
     Py.log_args := map py_log_arg (log_args r) |}.

Definition py_world (w : World) : Py.World :=
  {| Py._active := _active w;
     Py.draws := draws w;
     Py.drawn := drawn w;
     Py.timeouts := map py_timer (timeouts w);
     Py.log := map py_log_record (log w) |}.

Definition py_outcome (o : Outcome Simple.t) : Py.Outcome Py.t :=
  match o with
  | Returned s w => Py.Returned (py_instance s) (py_world w)
  | Raised e w => Py.Raised e (py_world w)
  end.

(** * Binary64 arithmetic

    What the back-off needs of IEEE 754 multiplication and addition: rounding
    to nearest never takes an exact result below a representable number that
    the exact result is not below. The facts are proved on the specification
    of the operations ([SpecFloat]) and carried to the primitive operations by
    the specification equations of [FloatAxioms]. *)
Module Binary64.

Local Open Scope Z_scope.

(** *** Powers of two and numbers of digits *)

(** A positive number of [d] binary digits lies in [[2^(d-1), 2^d)]. *)
Lemma digits2_pos_bounds (m : positive) :
  2 ^ (Zpos (digits2_pos m) - 1) <= Zpos m < 2 ^ Zpos (digits2_pos m).
Proof.
  induction m as [m IH|m IH|]; cbn [digits2_pos].
  - rewrite Pos2Z.inj_succ.
    replace (Z.succ (Zpos (digits2_pos m)) - 1) with (Z.succ (Zpos (digits2_pos m) - 1)) by lia.
    rewrite !Z.pow_succ_r by lia. lia.
  - rewrite Pos2Z.inj_succ.
    replace (Z.succ (Zpos (digits2_pos m)) - 1) with (Z.succ (Zpos (digits2_pos m) - 1)) by lia.
    rewrite !Z.pow_succ_r by lia. lia.
  - cbn. lia.
Qed.

Lemma pow2_pos (n : Z) : 0 <= n -> 0 < 2 ^ n.
Proof. intros. apply Z.pow_pos_nonneg; lia. Qed.

Lemma pow2_le (a b : Z) : 0 <= a <= b -> 2 ^ a <= 2 ^ b.
Proof. intros. apply Z.pow_le_mono_r; lia. Qed.

Lemma pow2_split (a b : Z) : 0 <= a -> 0 <= b -> 2 ^ (a + b) = 2 ^ a * 2 ^ b.
Proof. intros. apply Z.pow_add_r; lia. Qed.

Lemma digits2_pos_le (m : positive) (k : Z) :
  0 <= k -> Zpos m < 2 ^ k -> Zpos (digits2_pos m) <= k.
Proof.
  intros Hk Hm.
  destruct (Z_le_gt_dec (Zpos (digits2_pos m)) k) as [|Hgt]; [assumption|exfalso].
  pose proof (digits2_pos_bounds m) as [Hlo _].
  assert (2 ^ k <= 2 ^ (Zpos (digits2_pos m) - 1)) by (apply pow2_le; lia).
  lia.
Qed.

Lemma digits2_pos_ge (m : positive) (k : Z) :
  2 ^ k <= Zpos m -> k < Zpos (digits2_pos m).
Proof.
  intros Hm.
  destruct (Z_lt_ge_dec k (Zpos (digits2_pos m))) as [|Hge]; [assumption|exfalso].
  pose proof (digits2_pos_bounds m) as [_ Hhi].
  assert (2 ^ Zpos (digits2_pos m) <= 2 ^ k) by (apply pow2_le; lia).
  lia.
Qed.

(** *** Canonical mantissas and the order

    A finite binary64 number is stored with 53 digits, or with fewer at the
    smallest exponent; on numbers stored that way, comparing exponents and
    then mantissas compares the values. *)

Lemma canonical_spec (m : positive) (e : Z) :
  canonical_mantissa prec emax m e = true ->
  Zpos (digits2_pos m) <= 53 /\ -1074 <= e /\
  (Zpos (digits2_pos m) = 53 \/ e = -1074).
Proof.
  unfold canonical_mantissa, fexp, SpecFloat.emin, prec, emax.
  intro H. apply Z.eqb_eq in H. lia.
Qed.

Lemma lex_lt_scaled (m1 : positive) (e1 : Z) (m2 : positive) (e2 b : Z) :
  canonical_mantissa prec emax m1 e1 = true ->
  canonical_mantissa prec emax m2 e2 = true ->
  b <= e1 -> e1 < e2 ->
  scaled (Zpos m1) e1 b < scaled (Zpos m2) e2 b.
Proof.
  intros Cm1 Cm2 Hb Hlt.
  apply canonical_spec in Cm1. apply canonical_spec in Cm2.
  destruct Cm1 as (D1 & L1 & _). destruct Cm2 as (D2 & L2 & [N2|N2]); [|lia].
  pose proof (digits2_pos_bounds m1) as [_ H1].
  pose proof (digits2_pos_bounds m2) as [H2 _].
  rewrite N2 in H2.
  assert (Zpos m1 < 2 ^ 53).
  { assert (2 ^ Zpos (digits2_pos m1) <= 2 ^ 53) by (apply pow2_le; lia). lia. }
  unfold scaled.
  replace (e2 - b) with ((e1 - b) + (e2 - e1)) by lia.
  rewrite pow2_split by lia.
  assert (2 ^ 1 <= 2 ^ (e2 - e1)) by (apply pow2_le; lia).
  pose proof (pow2_pos (e1 - b) ltac:(lia)).
  change (2 ^ 1) with 2 in *. change (2 ^ 53) with 9007199254740992 in *.
  change (2 ^ (53 - 1)) with 4503599627370496 in *.
  set (P := 2 ^ (e1 - b)) in *. set (Q := 2 ^ (e2 - e1)) in *.
  assert (9007199254740992 <= Zpos m2 * Q) by nia.
  assert (Zpos m1 * P < 9007199254740992 * P) by nia.
  assert (9007199254740992 * P <= Zpos m2 * Q * P) by nia.
  lia.
Qed.

Lemma scaled_le_lex (m1 : positive) (e1 : Z) (m2 : positive) (e2 b : Z) :
  canonical_mantissa prec emax m1 e1 = true ->
  canonical_mantissa prec emax m2 e2 = true ->
  b <= e1 -> b <= e2 ->
  scaled (Zpos m1) e1 b <= scaled (Zpos m2) e2 b ->
  e1 < e2 \/ (e1 = e2 /\ (m1 <= m2)%positive).
Proof.
  intros Cm1 Cm2 Hb1 Hb2 Hle.
  destruct (Z.lt_trichotomy e1 e2) as [Hlt|[Heq|Hgt]].
  - now left.
  - right. split; [assumption|]. subst e2. unfold scaled in Hle.
    pose proof (pow2_pos (e1 - b) ltac:(lia)).
    assert (Zpos m1 <= Zpos m2) by nia. lia.
  - exfalso.
    pose proof (lex_lt_scaled m2 e2 m1 e1 b Cm2 Cm1 Hb2 Hgt). lia.
Qed.

(** [SFleb] on two positive finite numbers. *)
Lemma SFleb_finite_pos (m1 : positive) (e1 : Z) (m2 : positive) (e2 : Z) :
  SFleb (S754_finite false m1 e1) (S754_finite false m2 e2) = true <->
  e1 < e2 \/ (e1 = e2 /\ (m1 <= m2)%positive).
Proof.
  unfold SFleb, SFcompare.
  destruct (Z.compare_spec e1 e2) as [E|E|E].
  - rewrite Pos.compare_cont_spec. cbn [Pos.switch_Eq].
    destruct (Pos.compare_spec m1 m2) as [F|F|F]; split; intro H; try reflexivity;
      try discriminate; try lia.
  - split; intro H; [lia|reflexivity].
  - split; intro H; [discriminate|lia].
Qed.

(** *** Shifting and rounding *)

(** One shift to the right halves the mantissa. *)
Lemma shr_1_m (r : shr_record) :
  0 <= shr_m r -> shr_m (shr_1 r) = shr_m r / 2 /\ 0 <= shr_m (shr_1 r).
Proof.
  destruct r as [m rb sb]. cbn [shr_m]. intro Hm.
  destruct m as [|p|p]; [cbn; split; [reflexivity|lia] | | lia].
  destruct p as [p|p|]; cbn [shr_1 shr_m].
  - split; [|lia]. rewrite Pos2Z.inj_xI.
    apply Z.div_unique with (r := 1); lia.
  - split; [|lia]. rewrite Pos2Z.inj_xO.
    apply Z.div_unique with (r := 0); lia.
  - split; [reflexivity|lia].
Qed.

(** [p] shifts divide it by [2^p]. *)
Lemma iter_pos_shr_1_m (p : positive) (r : shr_record) :
  0 <= shr_m r ->
  shr_m (iter_pos shr_1 p r) = shr_m r / 2 ^ Zpos p /\ 0 <= shr_m (iter_pos shr_1 p r).
Proof.
  revert r. induction p as [p IH|p IH|]; intros r Hr; cbn [iter_pos].
  - destruct (shr_1_m r Hr) as [E1 N1].
    destruct (IH _ N1) as [E2 N2].
    destruct (IH _ N2) as [E3 N3].
    split; [|assumption].
    rewrite E3, E2, E1.
    pose proof (pow2_pos (Zpos p) ltac:(lia)).
    rewrite !Z.div_div by lia.
    f_equal.
    replace (Zpos p~1) with (1 + Zpos p + Zpos p) by lia.
    rewrite !pow2_split by lia. change (2 ^ 1) with 2. lia.
  - destruct (IH _ Hr) as [E2 N2].
    destruct (IH _ N2) as [E3 N3].
    split; [|assumption].
    rewrite E3, E2.
    pose proof (pow2_pos (Zpos p) ltac:(lia)).
    rewrite !Z.div_div by lia.
    f_equal.
    replace (Zpos p~0) with (Zpos p + Zpos p) by lia.
    rewrite !pow2_split by lia. lia.
  - destruct (shr_1_m r Hr) as [E1 N1]. split; [|assumption].
    rewrite E1. reflexivity.
Qed.

(** Rounding to nearest keeps the truncated mantissa or takes the next one. *)
Lemma round_nearest_even_bounds (m : Z) (l : location) :
  m <= round_nearest_even m l <= m + 1.
Proof.
  destruct l as [|[| |]]; cbn [round_nearest_even]; try lia.
  destruct (Z.even m); lia.
Qed.

(** Truncating to the exponent of the format does not go below a
    representable number that was below. *)
Lemma truncation_above (mx : positive) (ex : Z) (m : positive) (e b : Z) :
  canonical_mantissa prec emax mx ex = true ->
  b <= ex -> b <= e ->
  scaled (Zpos mx) ex b <= scaled (Zpos m) e b ->
  0 < fexp prec emax (Zpos (digits2_pos m) + e) - e ->
  scaled (Zpos mx) ex b <=
    scaled (Zpos m / 2 ^ (fexp prec emax (Zpos (digits2_pos m) + e) - e))
      (fexp prec emax (Zpos (digits2_pos m) + e)) b.
Proof.
  intros Cx Hbx Hbe Hle Hn.
  pose proof (canonical_spec _ _ Cx) as (Dx & Lx & Nx).
  pose proof (digits2_pos_bounds mx) as [Hxlo Hxhi].
  pose proof (digits2_pos_bounds m) as [Hlo Hhi].
  set (dx := Zpos (digits2_pos mx)) in *.
  set (d := Zpos (digits2_pos m)) in *.
  assert (Hdx : 1 <= dx) by (unfold dx; lia).
  assert (Hd : 1 <= d) by (unfold d; lia).
  (* magnitudes *)
  assert (Hmag : dx + ex <= d + e).
  { unfold scaled in Hle.
    assert (A : 2 ^ (dx - 1 + (ex - b)) <= Zpos mx * 2 ^ (ex - b)).
    { rewrite pow2_split by lia. pose proof (pow2_pos (ex - b) ltac:(lia)). nia. }
    assert (B : Zpos m * 2 ^ (e - b) < 2 ^ (d + (e - b))).
    { rewrite pow2_split by lia. pose proof (pow2_pos (e - b) ltac:(lia)). nia. }
    assert (C : 2 ^ (dx - 1 + (ex - b)) < 2 ^ (d + (e - b))) by lia.
    apply Z.pow_lt_mono_r_iff in C; lia. }
  revert Hn. unfold fexp, SpecFloat.emin, prec, emax.
  change (3 - 1024 - 53) with (-1074).
  set (e1 := Z.max (d + e - 53) (-1074)). intro Hn.
  assert (Hex : ex <= e1) by (unfold e1; lia).
  unfold scaled in *.
  pose proof (pow2_pos (e1 - e) ltac:(lia)) as Hpn.
  destruct (Z.eq_dec ex e1) as [Heq|Hne].
  - rewrite <- Heq in *.
    replace (ex - b) with ((e - b) + (ex - e)) in Hle by lia.
    rewrite pow2_split in Hle by lia.
    pose proof (pow2_pos (e - b) ltac:(lia)) as HP.
    pose proof (pow2_pos (ex - b) ltac:(lia)) as HQ.
    assert (Zpos mx * 2 ^ (ex - e) <= Zpos m) by nia.
    assert (Zpos mx <= Zpos m / 2 ^ (ex - e)).
    { apply Z.div_le_lower_bound; lia. }
    nia.
  - assert (He1 : e1 = d + e - 53) by (unfold e1 in *; lia).
    assert (Hq : 2 ^ 52 <= Zpos m / 2 ^ (e1 - e)).
    { apply Z.div_le_lower_bound; [lia|].
      rewrite <- pow2_split by lia.
      replace (e1 - e + 52) with (d - 1) by lia. exact Hlo. }
    assert (Hx : Zpos mx < 2 ^ 53).
    { assert (2 ^ dx <= 2 ^ 53) by (apply pow2_le; lia). lia. }
    replace (e1 - b) with ((ex - b) + (e1 - ex)) by lia.
    rewrite pow2_split by lia.
    assert (2 ^ 1 <= 2 ^ (e1 - ex)) by (apply pow2_le; lia).
    pose proof (pow2_pos (ex - b) ltac:(lia)) as HQ.
    change (2 ^ 1) with 2 in *. change (2 ^ 53) with 9007199254740992 in *.
    change (2 ^ 52) with 4503599627370496 in *.
    set (P := 2 ^ (ex - b)) in *. set (Q := 2 ^ (e1 - ex)) in *.
    set (T := Zpos m / 2 ^ (e1 - e)) in *.
    assert (9007199254740992 <= T * Q) by nia.
    assert (Zpos mx * P < 9007199254740992 * P) by nia.
    assert (9007199254740992 * P <= T * Q * P) by nia.
    lia.
Qed.

Lemma scaled_pos (m : positive) (e b : Z) : b <= e -> 0 < scaled (Zpos m) e b.
Proof.
  intro H. unfold scaled. pose proof (pow2_pos (e - b) ltac:(lia)). nia.
Qed.

(** What [shr_fexp] does to an exact positive mantissa. *)
Lemma shr_fexp_exact (m : positive) (e : Z) :
  (fexp prec emax (Zpos (digits2_pos m) + e) - e <= 0 /\
   shr_fexp prec emax (Zpos m) e loc_Exact =
     ({| shr_m := Zpos m; shr_r := false; shr_s := false |}, e)) \/
  (0 < fexp prec emax (Zpos (digits2_pos m) + e) - e /\
   exists r : shr_record,
     shr_fexp prec emax (Zpos m) e loc_Exact =
       (r, fexp prec emax (Zpos (digits2_pos m) + e)) /\
     shr_m r = Zpos m / 2 ^ (fexp prec emax (Zpos (digits2_pos m) + e) - e)).
Proof.
  unfold shr_fexp, Zdigits2, shr_record_of_loc, shr.
  destruct (fexp prec emax (Zpos (digits2_pos m) + e) - e) as [|p|p] eqn:En.
  - left. split; [lia|reflexivity].
  - right. split; [lia|].
    eexists. split.
    + f_equal. lia.
    + apply iter_pos_shr_1_m. cbn. lia.
  - left. split; [lia|reflexivity].
Qed.

(** The last step of [binary_round_aux]: packing mantissa and exponent. *)
Lemma pack_above (mx : positive) (ex : Z) (mz e' b : Z) :
  canonical_mantissa prec emax mx ex = true ->
  b <= ex -> b <= e' ->
  scaled (Zpos mx) ex b <= scaled mz e' b ->
  valid_binary
    match mz with
    | Z0 => S754_zero false
    | Zpos m => if e' <=? emax - prec then S754_finite false m e' else S754_infinity false
    | Zneg _ => S754_nan
    end = true ->
  SFleb (S754_finite false mx ex)
    match mz with
    | Z0 => S754_zero false
    | Zpos m => if e' <=? emax - prec then S754_finite false m e' else S754_infinity false
    | Zneg _ => S754_nan
    end = true.
Proof.
  intros Cx Hbx Hbe Hle Hv.
  pose proof (scaled_pos mx ex b Hbx) as Hpos.
  assert (Hz : 0 < mz).
  { unfold scaled in Hle, Hpos. pose proof (pow2_pos (e' - b) ltac:(lia)). nia. }
  destruct mz as [|m|m]; try lia.
  destruct (e' <=? emax - prec); [|reflexivity].
  cbn [SpecFloat.valid_binary] in Hv. unfold bounded in Hv.
  apply andb_true_iff in Hv. destruct Hv as [Cz _].
  apply SFleb_finite_pos.
  exact (scaled_le_lex mx ex m e' b Cx Cz Hbx Hbe Hle).
Qed.

(** Rounding an exact value to nearest does not go below a representable
    number that was below it. *)
Lemma binary_round_aux_above (mx : positive) (ex : Z) (m : positive) (e b : Z) :
  canonical_mantissa prec emax mx ex = true ->
  b <= ex -> b <= e ->
  scaled (Zpos mx) ex b <= scaled (Zpos m) e b ->
  valid_binary (binary_round_aux prec emax false (Zpos m) e loc_Exact) = true ->
  SFleb (S754_finite false mx ex)
    (binary_round_aux prec emax false (Zpos m) e loc_Exact) = true.
Proof.
  intros Cx Hbx Hbe Hle.
  unfold binary_round_aux.
  destruct (shr_fexp_exact m e) as [[Hn E]|[Hn (r & E & Er)]]; rewrite E.
  - (* no shift: the mantissa is kept *)
    cbn [shr_m loc_of_shr_record round_nearest_even]. rewrite E. cbn [shr_m].
    intro Hv. exact (pack_above mx ex (Zpos m) e b Cx Hbx Hbe Hle Hv).
  - (* a shift, then rounding *)
    pose proof (truncation_above mx ex m e b Cx Hbx Hbe Hle Hn) as Ht.
    rewrite <- Er in Ht.
    set (e1 := fexp prec emax (Zpos (digits2_pos m) + e)) in *.
    assert (Hbe1 : b <= e1) by lia.
    pose proof (round_nearest_even_bounds (shr_m r) (loc_of_shr_record r)) as [Hr _].
    set (m2 := round_nearest_even (shr_m r) (loc_of_shr_record r)) in *.
    assert (Ht2 : scaled (Zpos mx) ex b <= scaled m2 e1 b).
    { unfold scaled in *. pose proof (pow2_pos (e1 - b) ltac:(lia)). nia. }
    assert (Hm2 : 0 < m2).
    { pose proof (scaled_pos mx ex b Hbx). unfold scaled in *.
      pose proof (pow2_pos (e1 - b) ltac:(lia)). nia. }
    destruct m2 as [|q|q] eqn:Eq2; try lia.
    destruct (shr_fexp_exact q e1) as [[Hn2 E2]|[Hn2 (r2 & E2 & Er2)]]; rewrite E2.
    + cbn [shr_m]. intro Hv.
      exact (pack_above mx ex (Zpos q) e1 b Cx Hbx Hbe1 Ht2 Hv).
    + pose proof (truncation_above mx ex q e1 b Cx Hbx Hbe1 Ht2 Hn2) as Ht3.
      rewrite <- Er2 in Ht3.
      intro Hv.
      refine (pack_above mx ex (shr_m r2) _ b Cx Hbx _ Ht3 Hv). lia.
Qed.

(** *** Multiplication and addition *)

Lemma Prim2SF_one : Prim2SF 1 = SFone.
Proof. reflexivity. Qed.

Lemma Prim2SF_zero : Prim2SF 0 = SFzero.
Proof. reflexivity. Qed.

Lemma one_canonical : canonical_mantissa prec emax 4503599627370496 (-52) = true.
Proof. reflexivity. Qed.

(** [1 <= y] on a canonical finite [y]: on the scale 2^-52. *)
Lemma one_le_scaled (my : positive) (ey : Z) :
  canonical_mantissa prec emax my ey = true ->
  SFleb SFone (S754_finite false my ey) = true ->
  -52 <= ey /\ 2 ^ 52 <= Zpos my * 2 ^ (ey + 52).
Proof.
  intros Cy H. apply SFleb_finite_pos in H.
  destruct H as [Hlt|[Heq Hm]].
  - split; [lia|].
    pose proof (lex_lt_scaled _ _ my ey (-52) one_canonical Cy ltac:(lia) Hlt) as L.
    unfold scaled in L. change (-52 - -52) with 0 in L.
    replace (ey - -52) with (ey + 52) in L by lia.
    change (2 ^ 0) with 1 in L. change (2 ^ 52) with 4503599627370496. lia.
  - subst ey. split; [lia|]. change (2 ^ (-52 + 52)) with 1.
    change (2 ^ 52) with 4503599627370496. lia.
Qed.

Lemma valid_finite_canonical (s : bool) (m : positive) (e : Z) :
  valid_binary (S754_finite s m e) = true -> canonical_mantissa prec emax m e = true.
Proof.
  cbn [SpecFloat.valid_binary]. unfold bounded. intro H.
  apply andb_true_iff in H. tauto.
Qed.

(** Multiplying a non-negative number by a number that is at least 1. *)
Lemma SFmul_above (x y : spec_float) :
  valid_binary x = true -> valid_binary y = true ->
  valid_binary (SF64mul x y) = true ->
  SFleb SFzero x = true -> SFleb SFone y = true ->
  SF64mul x y = S754_nan \/ SFleb x (SF64mul x y) = true.
Proof.
  intros Vx Vy Vr Hx Hy.
  destruct x as [sx|sx| |sx mx ex]; try discriminate Hx;
    destruct y as [sy|sy| |sy my ey]; try discriminate Hy;
    try (destruct sx; try discriminate Hx);
    try (destruct sy; try discriminate Hy);
    try (left; reflexivity); try (right; reflexivity).
  right.
  pose proof (valid_finite_canonical _ _ _ Vx) as Cx.
  pose proof (valid_finite_canonical _ _ _ Vy) as Cy.
  destruct (one_le_scaled my ey Cy Hy) as [Hey Hs].
  unfold SF64mul, SFmul in *. cbn [xorb] in *.
  apply binary_round_aux_above with (b := ex - 52); try assumption; try lia.
  unfold scaled.
  replace (ex - (ex - 52)) with 52 by lia.
  replace (ex + ey - (ex - 52)) with (ey + 52) by lia.
  rewrite Pos2Z.inj_mul. nia.
Qed.

(** Appending [d] zero bits multiplies by [2^d]. *)
Lemma iter_xO_scaled (d m : positive) :
  Zpos (Pos.iter xO m d) = Zpos m * 2 ^ Zpos d.
Proof.
  induction d as [|d IH] using Pos.peano_ind.
  - cbn. lia.
  - rewrite Pos.iter_succ, Pos2Z.inj_xO, IH, Pos2Z.inj_succ, Z.pow_succ_r by lia. lia.
Qed.

(** Aligning a mantissa on a smaller exponent keeps the value. *)
Lemma shl_align_spec (m : positive) (e e' : Z) :
  snd (shl_align m e e') <= e /\
  (e' <= e -> snd (shl_align m e e') = e') /\
  Zpos (fst (shl_align m e e')) = Zpos m * 2 ^ (e - snd (shl_align m e e')).
Proof.
  unfold shl_align.
  destruct (e' - e) as [|d|d] eqn:Ed; cbn [fst snd].
  - rewrite Z.sub_diag. cbn. lia.
  - rewrite Z.sub_diag. cbn. lia.
  - rewrite iter_xO_scaled. replace (e - e') with (Zpos d) by lia. lia.
Qed.

(** Adding 1 to a non-negative number. *)
Lemma SFadd_one_above (x : spec_float) :
  valid_binary x = true ->
  valid_binary (SF64add x SFone) = true ->
  SFleb SFzero x = true ->
  SFleb SFone (SF64add x SFone) = true.
Proof.
  intros Vx Vr Hx.
  destruct x as [sx|sx| |sx mx ex]; try discriminate Hx;
    try (destruct sx; try discriminate Hx); try reflexivity.
  unfold SF64add, SFadd, SFone in *. cbn [cond_Zopp] in *.
  set (ez := Z.min ex (-52)) in *.
  destruct (shl_align_spec mx ex ez) as (_ & _ & Ax).
  destruct (shl_align_spec 4503599627370496 (-52) ez) as (_ & S1 & A1).
  rewrite S1 in A1 by (unfold ez; lia).
  set (a := fst (shl_align mx ex ez)) in *.
  set (c := fst (shl_align 4503599627370496 (-52) ez)) in *.
  change (Zpos a + Zpos c) with (Zpos (a + c)) in *.
  cbn [binary_normalize] in *. unfold binary_round in *.
  set (et := fexp prec emax (Zpos (digits2_pos (a + c)) + ez)) in *.
  destruct (shl_align_spec (a + c) ez et) as (Le & _ & As).
  destruct (shl_align (a + c) ez et) as [mz ez'] eqn:Ez. cbn [fst snd] in *.
  apply binary_round_aux_above with (b := ez'); try assumption;
    try reflexivity; try (unfold ez in *; lia).
  unfold scaled. rewrite Z.sub_diag, As, Pos2Z.inj_add, A1.
  replace (-52 - ez') with ((-52 - ez) + (ez - ez')) by lia.
  rewrite pow2_split by (unfold ez in *; lia).
  pose proof (pow2_pos (ez - ez') ltac:(lia)).
  pose proof (pow2_pos (-52 - ez) ltac:(unfold ez; lia)).
  change (2 ^ 0) with 1. nia.
Qed.

(** The product of two non-negative numbers is not negative. *)
Lemma SFmul_nonneg (x y : spec_float) :
  SFleb SFzero x = true -> SFleb SFzero y = true ->
  SF64mul x y = S754_nan \/ SFleb SFzero (SF64mul x y) = true.
Proof.
  intros Hx Hy.
  destruct x as [sx|sx| |sx mx ex]; try discriminate Hx;
    destruct y as [sy|sy| |sy my ey]; try discriminate Hy;
    try (destruct sx; try discriminate Hx);
    try (destruct sy; try discriminate Hy);
    try (left; reflexivity); try (right; reflexivity).
  unfold SF64mul, SFmul, binary_round_aux. cbn [xorb].
  destruct (shr_fexp prec emax (Zpos (mx * my)) (ex + ey) loc_Exact) as [r1 e1].
  destruct (shr_fexp prec emax _ e1 loc_Exact) as [r2 e2].
  destruct (shr_m r2); [right; reflexivity| |left; reflexivity].
  destruct (e2 <=? emax - prec); right; reflexivity.
Qed.

(** *** The order on [spec_float] *)

Lemma SFltb_SFleb (x y : spec_float) : SFltb x y = true -> SFleb x y = true.
Proof.
  unfold SFltb, SFleb. destruct (SFcompare x y) as [[| |]|]; congruence.
Qed.

Lemma SFleb_refl (x : spec_float) : x <> S754_nan -> SFleb x x = true.
Proof.
  intro H. destruct x as [s|s| |s m e]; try congruence; unfold SFleb, SFcompare.
  - reflexivity.
  - destruct s; reflexivity.
  - rewrite Z.compare_refl, Pos.compare_cont_refl. destruct s; reflexivity.
Qed.

Lemma SFleb_not_nan_l (x y : spec_float) : SFleb x y = true -> x <> S754_nan.
Proof. intros H E. subst x. discriminate H. Qed.

Lemma SFleb_not_nan_r (x y : spec_float) : SFleb x y = true -> y <> S754_nan.
Proof. intros H E. subst y. destruct x; discriminate H. Qed.

(** [SFleb] on two negative finite numbers. *)
Lemma SFleb_finite_neg (m1 : positive) (e1 : Z) (m2 : positive) (e2 : Z) :
  SFleb (S754_finite true m1 e1) (S754_finite true m2 e2) = true <->
  e2 < e1 \/ (e1 = e2 /\ (m2 <= m1)%positive).
Proof.
  unfold SFleb, SFcompare.
  destruct (Z.compare_spec e1 e2) as [E|E|E].
  - rewrite Pos.compare_cont_spec. cbn [Pos.switch_Eq].
    destruct (Pos.compare_spec m1 m2) as [F|F|F]; cbn [CompOpp]; split; intro H;
      try reflexivity; try discriminate; try lia.
  - split; intro H; [discriminate|lia].
  - split; intro H; [lia|reflexivity].
Qed.

Lemma SFleb_trans (x y z : spec_float) :
  SFleb x y = true -> SFleb y z = true -> SFleb x z = true.
Proof.
  intros Hxy Hyz.
  destruct x as [sx|sx| |sx mx ex]; try discriminate Hxy;
    destruct y as [sy|sy| |sy my ey]; try discriminate Hxy; try discriminate Hyz;
    destruct z as [sz|sz| |sz mz ez]; try discriminate Hyz;
    try (destruct sx); try (destruct sy); try (destruct sz);
    try discriminate Hxy; try discriminate Hyz; try reflexivity.
  - apply SFleb_finite_neg. apply SFleb_finite_neg in Hxy, Hyz. lia.
  - apply SFleb_finite_pos. apply SFleb_finite_pos in Hxy, Hyz. lia.
Qed.

(** *** Exact doubling *)

(** Shifting out zero bits is exact. *)
Lemma shr_1_even (k : Z) :
  0 <= k ->
  shr_1 {| shr_m := 2 * k; shr_r := false; shr_s := false |} =
    {| shr_m := k; shr_r := false; shr_s := false |}.
Proof.
  intro Hk. destruct k as [|p|p]; try lia; reflexivity.
Qed.

Lemma iter_pos_shr_1_exact (p : positive) (k : Z) :
  0 <= k ->
  iter_pos shr_1 p {| shr_m := k * 2 ^ Zpos p; shr_r := false; shr_s := false |} =
    {| shr_m := k; shr_r := false; shr_s := false |}.
Proof.
  revert k. induction p as [p IH|p IH|]; intros k Hk; cbn [iter_pos].
  - replace (k * 2 ^ Zpos p~1) with (2 * ((k * 2 ^ Zpos p) * 2 ^ Zpos p)).
    + pose proof (pow2_pos (Zpos p) ltac:(lia)).
      rewrite shr_1_even by nia. rewrite IH by nia. apply IH, Hk.
    + replace (Zpos p~1) with (1 + Zpos p + Zpos p) by lia.
      rewrite !pow2_split by lia. change (2 ^ 1) with 2. lia.
  - replace (k * 2 ^ Zpos p~0) with ((k * 2 ^ Zpos p) * 2 ^ Zpos p).
    + pose proof (pow2_pos (Zpos p) ltac:(lia)).
      rewrite IH by nia. apply IH, Hk.
    + replace (Zpos p~0) with (Zpos p + Zpos p) by lia.
      rewrite !pow2_split by lia. lia.
  - change (2 ^ 1) with 2. rewrite Z.mul_comm. apply shr_1_even, Hk.
Qed.

(** The exponent only shifts the result of [shr]. *)
Lemma shr_exponent (r : shr_record) (e n : Z) :
  shr r e n = (fst (shr r 0 n), e + snd (shr r 0 n)).
Proof.
  destruct n; cbn [shr fst snd]; f_equal; lia.
Qed.

(** Above the subnormal range, [shr_fexp] leaves 53 digits whatever the
    exponent is. *)
Lemma shr_fexp_normal (m : positive) (e : Z) :
  -1074 <= Zpos (digits2_pos m) + e - 53 ->
  shr_fexp prec emax (Zpos m) e loc_Exact =
    (fst (shr {| shr_m := Zpos m; shr_r := false; shr_s := false |} 0
            (Zpos (digits2_pos m) - 53)),
     e + snd (shr {| shr_m := Zpos m; shr_r := false; shr_s := false |} 0
                (Zpos (digits2_pos m) - 53))).
Proof.
  intro H. unfold shr_fexp, Zdigits2, shr_record_of_loc.
  replace (fexp prec emax (Zpos (digits2_pos m) + e) - e)
    with (Zpos (digits2_pos m) - 53)
    by (unfold fexp, SpecFloat.emin, prec, emax; lia).
  apply shr_exponent.
Qed.

(** After the shift of a mantissa of at least 53 digits, 53 digits are left. *)
Lemma shr_normal_mantissa (m : positive) :
  53 <= Zpos (digits2_pos m) ->
  2 ^ 52 <=
    shr_m (fst (shr {| shr_m := Zpos m; shr_r := false; shr_s := false |} 0
                  (Zpos (digits2_pos m) - 53))) /\
  snd (shr {| shr_m := Zpos m; shr_r := false; shr_s := false |} 0
         (Zpos (digits2_pos m) - 53)) = Zpos (digits2_pos m) - 53.
Proof.
  intro Hd. pose proof (digits2_pos_bounds m) as [Hlo _].
  unfold shr.
  destruct (Zpos (digits2_pos m) - 53) as [|p|p] eqn:En; cbn [fst snd shr_m]; try lia.
  - replace (Zpos (digits2_pos m) - 1) with 52 in Hlo by lia. lia.
  - destruct (iter_pos_shr_1_m p {| shr_m := Zpos m; shr_r := false; shr_s := false |})
      as [E _]; [cbn; lia|].
    rewrite E. cbn [shr_m]. split; [|lia].
    apply Z.div_le_lower_bound; [apply pow2_pos; lia|].
    rewrite <- pow2_split by lia.
    replace (Zpos p + 52) with (Zpos (digits2_pos m) - 1) by lia. exact Hlo.
Qed.

(** In the range of normal numbers, rounding the same mantissa with the next
    exponent gives the double. *)
Lemma binary_round_aux_next_exponent (s : bool) (m : positive) (e : Z) :
  53 <= Zpos (digits2_pos m) ->
  -1074 <= Zpos (digits2_pos m) + e - 53 ->
  binary_round_aux prec emax s (Zpos m) (e + 1) loc_Exact =
    SFdouble (binary_round_aux prec emax s (Zpos m) e loc_Exact).
Proof.
  intros Hd He. unfold binary_round_aux.
  rewrite !shr_fexp_normal by lia.
  destruct (shr_normal_mantissa m Hd) as [Hm1 Hs1].
  set (r1 := fst (shr _ 0 _)) in *. set (s1 := snd (shr _ 0 _)) in *.
  pose proof (round_nearest_even_bounds (shr_m r1) (loc_of_shr_record r1)) as [Hr _].
  set (m2 := round_nearest_even (shr_m r1) (loc_of_shr_record r1)) in *.
  assert (H2 : 2 ^ 52 <= m2) by lia.
  destruct m2 as [|q|q] eqn:E2; try (change (2 ^ 52) with 4503599627370496 in H2; lia).
  pose proof (digits2_pos_ge q 52 H2) as Hq.
  rewrite !shr_fexp_normal by lia.
  set (r2 := fst (shr _ 0 _)). set (s2 := snd (shr _ 0 _)).
  destruct (shr_m r2) as [|m3|m3]; try reflexivity.
  unfold SFdouble.
  replace (e + 1 + s1 + s2) with (e + s1 + s2 + 1) by lia.
  destruct (Z.leb_spec (e + s1 + s2) (emax - prec)) as [L2|L2].
  - reflexivity.
  - destruct (Z.leb_spec (e + s1 + s2 + 1) (emax - prec)) as [L1|L1]; [lia|reflexivity].
Qed.

(** In the range of normal numbers, the exponent of the rounded result is not
    below the one the format gives to the exact value. *)
Lemma binary_round_aux_exponent (s : bool) (m : positive) (e : Z) :
  53 <= Zpos (digits2_pos m) ->
  -1074 <= Zpos (digits2_pos m) + e - 53 ->
  forall (s' : bool) (m' : positive) (e' : Z),
    binary_round_aux prec emax s (Zpos m) e loc_Exact = S754_finite s' m' e' ->
    e + Zpos (digits2_pos m) - 53 <= e'.
Proof.
  intros Hd He s' m' e'. unfold binary_round_aux.
  rewrite !shr_fexp_normal by lia.
  destruct (shr_normal_mantissa m Hd) as [Hm1 Hs1].
  set (r1 := fst (shr _ 0 _)) in *. set (s1 := snd (shr _ 0 _)) in *.
  pose proof (round_nearest_even_bounds (shr_m r1) (loc_of_shr_record r1)) as [Hr _].
  set (m2 := round_nearest_even (shr_m r1) (loc_of_shr_record r1)) in *.
  assert (H2 : 2 ^ 52 <= m2) by lia.
  destruct m2 as [|q|q] eqn:E2; try (change (2 ^ 52) with 4503599627370496 in H2; lia).
  pose proof (digits2_pos_ge q 52 H2) as Hq.
  rewrite !shr_fexp_normal by lia.
  destruct (shr_normal_mantissa q ltac:(lia)) as [_ Hs2].
  set (r2 := fst (shr {| shr_m := Zpos q; shr_r := false; shr_s := false |} 0
                    (Zpos (digits2_pos q) - 53))) in *.
  set (s2 := snd (shr {| shr_m := Zpos q; shr_r := false; shr_s := false |} 0
                    (Zpos (digits2_pos q) - 53))) in *.
  destruct (shr_m r2) as [|m3|m3]; try discriminate.
  destruct (e + s1 + s2 <=? emax - prec); try discriminate.
  intro E. injection E as _ _ E. lia.
Qed.

(** Multiplying by [2^52] adds 52 digits. *)
Lemma digits2_pos_mul_pow2 (m : positive) :
  Zpos (digits2_pos (m * 4503599627370496)) = Zpos (digits2_pos m) + 52.
Proof.
  pose proof (digits2_pos_bounds m) as [Hlo Hhi].
  assert (Hd : 1 <= Zpos (digits2_pos m)) by lia.
  apply Z.le_antisymm.
  - apply digits2_pos_le; [lia|].
    rewrite Pos2Z.inj_mul, pow2_split by lia.
    change (2 ^ 52) with 4503599627370496. lia.
  - apply Zlt_succ_le. unfold Z.succ.
    replace (Zpos (digits2_pos m) + 52) with ((Zpos (digits2_pos m) - 1 + 52) + 1) by lia.
    apply Zplus_lt_compat_r.
    apply digits2_pos_ge.
    rewrite Pos2Z.inj_mul, pow2_split by lia.
    change (2 ^ 52) with 4503599627370496. lia.
Qed.

(** Multiplying a normal number, a zero or an infinity by 2.0. *)
Lemma SFmul_two (x : spec_float) :
  valid_binary x = true ->
  (forall s m e, x = S754_finite s m e -> Zpos (digits2_pos m) = 53) ->
  SF64mul x SFtwo = SFdouble x.
Proof.
  intros Vx Hn.
  destruct x as [s|s| |s m e]; try (destruct s; reflexivity); try reflexivity.
  specialize (Hn s m e eq_refl).
  pose proof (valid_finite_canonical _ _ _ Vx) as Cx.
  apply canonical_spec in Cx. destruct Cx as (_ & Le & _).
  unfold SF64mul, SFmul, SFtwo, SFdouble, binary_round_aux.
  replace (xorb s false) with s by (destruct s; reflexivity).
  pose proof (digits2_pos_mul_pow2 m) as Dm.
  assert (Hside : -1074 <= Zpos (digits2_pos (m * 4503599627370496)) + (e + -51) - 53).
  { rewrite Dm, Hn. lia. }
  rewrite (shr_fexp_normal _ _ Hside).
  rewrite Dm, Hn. change (53 + 52 - 53) with 52.
  cbn [shr fst snd].
  rewrite Pos2Z.inj_mul. change (Zpos 4503599627370496) with (2 ^ 52).
  rewrite iter_pos_shr_1_exact by lia.
  cbn [shr_m loc_of_shr_record round_nearest_even].
  rewrite shr_fexp_normal by lia.
  rewrite Hn. change (53 - 53) with 0. cbn [shr fst snd shr_m].
  replace (e + -51 + (0 + 52) + 0) with (e + 1) by lia.
  reflexivity.
Qed.

(** *** Comparisons the other way round, and doubling *)

(** [SFcompare] the other way round. *)
Lemma SFcompare_swap (x y : spec_float) :
  SFcompare y x =
    match SFcompare x y with
    | Some c => Some (CompOpp c)
    | None => None
    end.
Proof.
  destruct x as [sx|sx| |sx mx ex], y as [sy|sy| |sy my ey];
    try (destruct sx); try (destruct sy); try reflexivity;
    cbn [SFcompare]; rewrite (Z.compare_antisym ey ex);
    destruct (ey ?= ex) eqn:E; cbn [CompOpp]; try reflexivity;
    rewrite !Pos.compare_cont_spec; cbn [Pos.switch_Eq];
    rewrite (Pos.compare_antisym my mx);
    destruct (my ?= mx)%positive; reflexivity.
Qed.

Lemma SFleb_SFltb_false (x y : spec_float) :
  SFleb x y = true -> SFltb y x = false.
Proof.
  unfold SFleb, SFltb. rewrite (SFcompare_swap x y).
  destruct (SFcompare x y) as [[| |]|]; cbn; congruence.
Qed.

(** Doubling keeps the order of non-negative numbers. *)
Lemma SFdouble_monotone (x y : spec_float) :
  SFleb SFzero x = true -> SFleb x y = true ->
  SFleb (SFdouble x) (SFdouble y) = true.
Proof.
  intros Hx Hxy.
  destruct x as [sx|sx| |sx mx ex]; try discriminate Hx;
    destruct y as [sy|sy| |sy my ey]; try discriminate Hxy;
    try (destruct sx; try discriminate Hx);
    try (destruct sy; try discriminate Hxy);
    try reflexivity; cbn [SFdouble];
    try (destruct (ey + 1 <=? emax - prec); reflexivity);
    try (destruct (ex + 1 <=? emax - prec); reflexivity).
  apply SFleb_finite_pos in Hxy.
  destruct (Z.leb_spec (ey + 1) (emax - prec)) as [Ly|Ly];
    destruct (Z.leb_spec (ex + 1) (emax - prec)) as [Lx|Lx]; try reflexivity.
  - apply SFleb_finite_pos. lia.
  - lia.
Qed.

(** *** The same facts on primitive floats *)

Local Open Scope float_scope.

(** The order. *)
Lemma leb_trans (a b c : float) :
  (a <=? b) = true -> (b <=? c) = true -> (a <=? c) = true.
Proof. rewrite !leb_spec. apply SFleb_trans. Qed.

Lemma ltb_leb (a b : float) : (a <? b) = true -> (a <=? b) = true.
Proof. rewrite ltb_spec, leb_spec. apply SFltb_SFleb. Qed.

Lemma leb_refl_l (a b : float) : (a <=? b) = true -> (a <=? a) = true.
Proof.
  rewrite !leb_spec. intro H. apply SFleb_refl. exact (SFleb_not_nan_l _ _ H).
Qed.

Lemma leb_refl_r (a b : float) : (a <=? b) = true -> (b <=? b) = true.
Proof.
  rewrite !leb_spec. intro H. apply SFleb_refl. exact (SFleb_not_nan_r _ _ H).
Qed.

(** NaN compares false and propagates. *)
Lemma nan_ltb (t m : float) : Prim2SF t = S754_nan -> (t <? m) = false.
Proof. intro H. rewrite ltb_spec, H. reflexivity. Qed.

Lemma nan_add_l (x y : float) : Prim2SF x = S754_nan -> Prim2SF (x + y) = S754_nan.
Proof. intro H. rewrite add_spec, H. reflexivity. Qed.

Lemma nan_mul_l (x y : float) : Prim2SF x = S754_nan -> Prim2SF (x * y) = S754_nan.
Proof. intro H. rewrite mul_spec, H. reflexivity. Qed.

Lemma nan_mul_r (x y : float) : Prim2SF y = S754_nan -> Prim2SF (x * y) = S754_nan.
Proof.
  intro H. rewrite mul_spec, H. unfold SF64mul, SFmul.
  destruct (Prim2SF x); reflexivity.
Qed.

(** The three rounding facts. *)
Lemma mul_nonneg (x y : float) :
  (0 <=? x) = true -> (0 <=? y) = true ->
  Prim2SF (x * y) = S754_nan \/ (0 <=? x * y) = true.
Proof.
  rewrite !leb_spec, mul_spec, Prim2SF_zero. apply SFmul_nonneg.
Qed.

Lemma add_one_above (x : float) :
  (0 <=? x) = true -> (1 <=? x + 1) = true.
Proof.
  rewrite !leb_spec, Prim2SF_zero, Prim2SF_one. intro Hx.
  pose proof (Prim2SF_valid (x + 1)) as Vr.
  rewrite add_spec, Prim2SF_one in *.
  apply SFadd_one_above; try assumption. apply Prim2SF_valid.
Qed.

Lemma mul_above (c z : float) :
  (0 <=? c) = true -> (1 <=? z) = true ->
  Prim2SF (c * z) = S754_nan \/ (c <=? c * z) = true.
Proof.
  rewrite !leb_spec, Prim2SF_zero, Prim2SF_one. intros Hc Hz.
  pose proof (Prim2SF_valid (c * z)) as Vr.
  rewrite mul_spec in *.
  apply SFmul_above; try assumption; apply Prim2SF_valid.
Qed.

(** The product computed by [new_delay] is not below the current delay, unless
    it is not a number. *)
Lemma backoff_product_above (cur r j m : float) :
  (0 <=? cur) = true -> (0 <=? r) = true -> (0 <=? j) = true -> (1 <=? m) = true ->
  Prim2SF (cur * ((r * j) + 1) * m) = S754_nan \/
  (cur <=? cur * ((r * j) + 1) * m) = true.
Proof.
  intros Hc Hr Hj Hm.
  destruct (mul_nonneg r j Hr Hj) as [N|P].
  { left. apply nan_mul_l, nan_mul_r, nan_add_l, N. }
  pose proof (add_one_above (r * j) P) as Hz.
  destruct (mul_above cur (r * j + 1) Hc Hz) as [N|Hy].
  { left. apply nan_mul_l, N. }
  assert (Hy0 : (0 <=? cur * (r * j + 1)) = true) by exact (leb_trans _ _ _ Hc Hy).
  destruct (mul_above (cur * (r * j + 1)) m Hy0 Hm) as [N|Ht].
  { left. exact N. }
  right. exact (leb_trans _ _ _ Hy Ht).
Qed.

(** Multiplying by 1.5 and then by 2.0 is multiplying by 3.0, from 1.0
    upwards: the first product is a normal number (or infinite), so doubling
    it is exact, and it is rounded the way the product by 3.0 is. *)
Lemma mul_three_halves_two (cur : float) :
  (1 <=? cur) = true -> cur * 1.5 * 2 = cur * 3.
Proof.
  intro H1. apply Prim2SF_inj.
  rewrite (mul_spec (cur * 1.5) 2), (mul_spec cur 3).
  pose proof (Prim2SF_valid (cur * 1.5)) as VA.
  rewrite (mul_spec cur 1.5) in *.
  change (Prim2SF 1.5) with SFthree_halves in *.
  change (Prim2SF 2) with SFtwo. change (Prim2SF 3) with SFthree.
  rewrite leb_spec, Prim2SF_one in H1.
  pose proof (Prim2SF_valid cur) as Vc.
  destruct (Prim2SF cur) as [s|s| |s mc ec]; try discriminate H1;
    try (destruct s; try discriminate H1; reflexivity).
  destruct s; try discriminate H1.
  pose proof (valid_finite_canonical _ _ _ Vc) as Cc.
  destruct (one_le_scaled mc ec Cc H1) as [Hec _].
  apply canonical_spec in Cc. destruct Cc as (_ & _ & [Dc|Dc]); [|lia].
  pose proof (digits2_pos_bounds mc) as [Hlo _]. rewrite Dc in Hlo.
  change (2 ^ (53 - 1))%Z with 4503599627370496%Z in Hlo.
  assert (HP : (2 ^ 104 <= Zpos (mc * 6755399441055744))%Z).
  { rewrite Pos2Z.inj_mul. change (2 ^ 104)%Z with (4503599627370496 * 4503599627370496)%Z.
    nia. }
  pose proof (digits2_pos_ge _ _ HP) as HdP.
  rewrite SFmul_two.
  - unfold SF64mul, SFmul, SFthree, SFthree_halves. cbn [xorb].
    replace (ec + -51)%Z with (ec + -52 + 1)%Z by lia.
    symmetry. apply binary_round_aux_next_exponent; lia.
  - exact VA.
  - intros s m e E.
    pose proof VA as VA'. rewrite E in VA'.
    pose proof (valid_finite_canonical _ _ _ VA') as CA.
    apply canonical_spec in CA. destruct CA as (_ & _ & [D|D]); [exact D|].
    unfold SF64mul, SFmul, SFthree_halves in E.
    apply binary_round_aux_exponent in E; lia.
Qed.

Lemma leb_ltb_false (a b : float) : (a <=? b) = true -> (b <? a) = false.
Proof. rewrite leb_spec, ltb_spec. apply SFleb_SFltb_false. Qed.

(** From 1.0 upwards, multiplying by 2.0 is exact doubling. *)
Lemma mul_two_double (x : float) :
  (1 <=? x) = true -> Prim2SF (x * 2) = SFdouble (Prim2SF x).
Proof.
  intro H1. rewrite mul_spec. change (Prim2SF 2) with SFtwo.
  rewrite leb_spec, Prim2SF_one in H1.
  pose proof (Prim2SF_valid x) as Vx.
  apply SFmul_two; [exact Vx|].
  intros s m e E. rewrite E in *.
  destruct s; [discriminate H1|].
  pose proof (valid_finite_canonical _ _ _ Vx) as Cx.
  destruct (one_le_scaled m e Cx H1) as [He _].
  apply canonical_spec in Cx. destruct Cx as (_ & _ & [D|D]); [exact D|lia].
Qed.

(** So it keeps the order. *)
Lemma mul_two_monotone (k y : float) :
  (1 <=? k) = true -> (k <=? y) = true -> (k * 2 <=? y * 2) = true.
Proof.
  intros Hk Hky.
  pose proof (leb_trans _ _ _ Hk Hky) as Hy.
  rewrite leb_spec, (mul_two_double k Hk), (mul_two_double y Hy).
  rewrite !leb_spec in *. rewrite Prim2SF_one in *.
  apply SFdouble_monotone; [|exact Hky].
  apply SFleb_trans with (y := SFone); [reflexivity|exact Hk].
Qed.

End Binary64.

(** * Properties *)

(** ** Frame and reset properties of the hooks *)

(** C3: in any state, [on_connection_open] returns normally, sets
    [current_delay] to [initial_retry_delay] and the attempt counter to 0; it
    leaves the four parameters and the world as they were. *)
Theorem on_connection_open_resets :
  forall (self : Simple.t) (conn : Connection) (w : World),
    exists self',
      Simple.on_connection_open self conn w = Returned self' w /\
      Simple.current_delay self' = Simple.initial_retry_delay self /\
      Simple.attempts_since_last_success self' = 0 /\
      Simple.initial_retry_delay self' = Simple.initial_retry_delay self /\
      Simple.multiplier self' = Simple.multiplier self /\
      Simple.max_delay self' = Simple.max_delay self /\
      Simple.jitter self' = Simple.jitter self.
Proof.
  intros self conn w.
  exists (Simple._reset self).
  repeat split.
Qed.

(** C4: while the shared flag is false, [on_connection_closed] returns at once:
    no timer is requested, no random value is drawn, nothing is logged and the
    instance is the one it was called on. *)
Theorem on_connection_closed_inactive :
  forall (self : Simple.t) (conn : Connection) (w : World),
    _active w = false ->
    Simple.on_connection_closed self conn w = Returned self w /\
    timeouts (final_world (Simple.on_connection_closed self conn w)) = timeouts w /\
    drawn (final_world (Simple.on_connection_closed self conn w)) = drawn w /\
    returned (Simple.on_connection_closed self conn w) = Some self.
Proof.
  intros self conn w Hoff.
  assert (E : Simple.on_connection_closed self conn w = Returned self w).
  { cbn. unfold Simple.on_connection_closed, bind,
      ReconnectionStrategy.is_active.
    rewrite Hoff. reflexivity. }
  rewrite E. repeat split.
Qed.

Lemma on_connection_closed_inactive_witness :
  Simple.on_connection_closed Simple.default some_connection (fresh_world false 0.25) =
    Returned Simple.default (fresh_world false 0.25) /\
  timeouts (final_world
    (Simple.on_connection_closed Simple.default some_connection (fresh_world false 0.25))) = [] /\
  drawn (final_world
    (Simple.on_connection_closed Simple.default some_connection (fresh_world false 0.25))) = O /\
  returned (Simple.on_connection_closed Simple.default some_connection (fresh_world false 0.25)) =
    Some Simple.default.
Proof.
  apply (on_connection_closed_inactive Simple.default some_connection (fresh_world false 0.25)).
  reflexivity.
Defined.

(** Every hook of [NullReconnectionStrategy] is the inherited no-op. *)
Lemma invoke_null :
  forall (h : Hook) (self : Null.t) (w : World),
    invoke h self w = Returned self w.
Proof.
  intros h self w. destruct h; reflexivity.
Qed.

(** C5: whatever sequence of hooks is invoked on a [NullReconnectionStrategy],
    the calls return normally and leave the whole world as it was (the timers
    requested, the shared flag, the random source, the log) and the instance
    too; [can_reconnect] is false. *)
Theorem null_strategy_inert :
  forall (hs : list Hook) (self : Null.t) (w : World),
    invoke_all hs self w = Returned self w /\
    timeouts (final_world (invoke_all hs self w)) = timeouts w /\
    _active (final_world (invoke_all hs self w)) = _active w /\
    can_reconnect self = false.
Proof.
  intros hs self w.
  assert (E : invoke_all hs self w = Returned self w).
  { induction hs as [|h hs IH]; [reflexivity|].
    cbn [invoke_all]. unfold bind. rewrite invoke_null. exact IH. }
  rewrite E. repeat split.
Qed.

(** C6: [on_connect_attempt] returns an instance whose
    [attempts_since_last_success] is the previous one plus 1 and whose other
    five attributes are the previous ones, in an unchanged world;
    [on_connect_attempt_failure] and [on_connection_closed] return an instance
    with the counter they found, whatever the shared flag is. *)
Theorem attempts_counter_frame :
  forall (self : Simple.t) (conn : Connection) (err : Exn) (w : World),
    (exists self',
       Simple.on_connect_attempt self conn w = Returned self' w /\
       Simple.attempts_since_last_success self' =
         Simple.attempts_since_last_success self + 1 /\
       Simple.current_delay self' = Simple.current_delay self /\
       Simple.initial_retry_delay self' = Simple.initial_retry_delay self /\
       Simple.multiplier self' = Simple.multiplier self /\
       Simple.max_delay self' = Simple.max_delay self /\
       Simple.jitter self' = Simple.jitter self) /\
    (exists self' w',
       Simple.on_connect_attempt_failure self conn err w = Returned self' w' /\
       Simple.attempts_since_last_success self' =
         Simple.attempts_since_last_success self) /\
    (exists self' w',
       Simple.on_connection_closed self conn w = Returned self' w' /\
       Simple.attempts_since_last_success self' =
         Simple.attempts_since_last_success self).
Proof.
  intros self conn err w.
  split; [|split].
  - eexists. split; [reflexivity|]. cbn. repeat split.
  - exists self. eexists. split; reflexivity.
  - unfold Simple.on_connection_closed, bind, ReconnectionStrategy.is_active.
    destruct (_active w); cbn.
    + eexists. eexists. split; reflexivity.
    + exists self, w. split; reflexivity.
Qed.

(** ** The shared flag *)

(** C7: the flag written by [set_active] through any instance is the one
    [is_active] reads through any other instance, of either class. After any
    instance has cleared it, [on_connection_closed] on any instance returns
    without requesting a timer; once any instance has set it again, a
    [SimpleReconnectionStrategy] requests one timer per closure. *)
Theorem active_flag_is_shared :
  forall (a b c : AnyStrategy) (x : Simple.t) (v : bool) (conn : Connection) (w : World),
    ReconnectionStrategy.is_active b
      (final_world (ReconnectionStrategy.set_active a v w)) =
      Returned v (final_world (ReconnectionStrategy.set_active a v w)) /\
    on_connection_closed b conn
      (final_world (ReconnectionStrategy.set_active a false w)) =
      Returned b (final_world (ReconnectionStrategy.set_active a false w)) /\
    timeouts (final_world (ReconnectionStrategy.set_active a false w)) = timeouts w /\
    exists x' w' d,
      on_connection_closed (OfSimple x) conn
        (final_world (ReconnectionStrategy.set_active c true
           (final_world (ReconnectionStrategy.set_active a false w)))) =
        Returned (OfSimple x') w' /\
      timeouts w' =
        timeouts w ++
        [{| timer_owner := conn; timer_delay := d; timer_callback := _reconnect conn |}].
Proof.
  intros a b c x v conn w.
  split; [reflexivity|].
  split.
  { destruct b as [n|s]; reflexivity. }
  split; [reflexivity|].
  cbn. unfold fmap, bind. cbn.
  eexists. eexists. eexists. split; reflexivity.
Qed.

(** ** [new_delay] *)

(** C10: [new_delay] returns the value it has just stored in [current_delay];
    it never reads the shared flag, so the same draw gives the same new delay
    whether the flag is set or not, and with the flag cleared the default
    instance still moves from 1.0 to 2.0. *)
Theorem new_delay_returns_stored_delay :
  forall (self : Simple.t) (v : bool) (w : World),
    exists d self',
      Simple.new_delay self (with_active v w) =
        Returned (d, self') (with_active v (with_drawn (S (drawn w)) w)) /\
      d = Simple.current_delay self' /\
      self' = Simple.set_current_delay d self /\
      d = reference_next (Simple.multiplier self) (Simple.max_delay self)
            (Simple.jitter self) (Simple.current_delay self) (draws w (drawn w)) /\
      returned (Simple.new_delay Simple.default (fresh_world false 0)) =
        Some (2.0%float, Simple.set_current_delay 2.0 Simple.default).
Proof.
  intros self v w.
  eexists. eexists.
  split; [reflexivity|].
  split; [reflexivity|].
  split; [reflexivity|].
  split; [reflexivity|].
  vm_compute. reflexivity.
Qed.

(** ** The delay sequence *)

(** One active closure: a single draw, a single timer, whose delay is the next
    term of the recurrence and is stored in [current_delay]. *)
Lemma on_connection_closed_active :
  forall (self : Simple.t) (conn : Connection) (w : World),
    _active w = true ->
    exists w',
      Simple.on_connection_closed self conn w =
        Returned
          (Simple.set_current_delay
             (reference_next (Simple.multiplier self) (Simple.max_delay self)
                (Simple.jitter self) (Simple.current_delay self) (draws w (drawn w)))
             self)
          w' /\
      _active w' = true /\
      draws w' = draws w /\
      drawn w' = S (drawn w) /\
      timeouts w' =
        timeouts w ++
        [{| timer_owner := conn;
            timer_delay :=
              reference_next (Simple.multiplier self) (Simple.max_delay self)
                (Simple.jitter self) (Simple.current_delay self) (draws w (drawn w));
            timer_callback := _reconnect conn |}].
Proof.
  intros self conn w Hon.
  unfold Simple.on_connection_closed, bind, ReconnectionStrategy.is_active.
  rewrite Hon. cbn.
  eexists. split; [reflexivity|].
  cbn. repeat split. exact Hon.
Qed.

Lemma closures_delays :
  forall (n : nat) (self : Simple.t) (conn : Connection) (w : World),
    _active w = true ->
    exists self' w',
      closures n self conn w = Returned self' w' /\
      delays w' =
        delays w ++
        reference_delays (Simple.multiplier self) (Simple.max_delay self)
          (Simple.jitter self) (Simple.current_delay self) (upcoming w n).
Proof.
  induction n as [|n IH]; intros self conn w Hon.
  - exists self, w. split; [reflexivity|].
    unfold upcoming. cbn. now rewrite app_nil_r.
  - destruct (on_connection_closed_active self conn w Hon)
      as (w1 & E1 & Hon1 & Hd1 & Hn1 & Ht1).
    cbn [closures]. unfold bind. rewrite E1.
    set (self1 := Simple.set_current_delay _ self) in *.
    destruct (IH self1 conn w1 Hon1) as (self' & w' & E & D).
    exists self', w'. split; [exact E|].
    rewrite D. unfold delays, upcoming.
    rewrite Ht1, Hd1, Hn1, map_app, <- app_assoc.
    reflexivity.
Qed.

(** With multiplier 2.0, jitter 0.5, [max_delay] 30.0 and a draw equal to 1, a
    delay of at least 1.0 is followed by three times itself capped at 30.0,
    which is at least 1.0 again. *)
Lemma reference_next_tripled :
  forall c : float,
    (1 <=? c)%float = true ->
    reference_next 2.0 30.0 0.5 c 1.0 = py_min 30.0 (c * 3.0)%float /\
    (1 <=? py_min 30.0 (c * 3.0))%float = true.
Proof.
  intros c Hc. split.
  - unfold reference_next. cbv zeta.
    change (1.0 * 0.5 + 1)%float with 1.5%float.
    now rewrite Binary64.mul_three_halves_two.
  - unfold py_min. destruct (c * 3.0 <? 30.0)%float eqn:E; [|reflexivity].
    assert (H0 : (0 <=? c)%float = true).
    { apply Binary64.leb_trans with (b := 1%float); [reflexivity|exact Hc]. }
    destruct (Binary64.mul_above c 3.0 H0 eq_refl) as [N|H].
    + rewrite (Binary64.nan_ltb _ 30.0%float N) in E. discriminate E.
    + exact (Binary64.leb_trans _ _ _ Hc H).
Qed.

Lemma reference_delays_tripled :
  forall (n : nat) (c : float),
    (1 <=? c)%float = true ->
    reference_delays 2.0 30.0 0.5 c (repeat 1.0%float n) = tripled n c.
Proof.
  induction n as [|n IH]; intros c Hc; [reflexivity|].
  cbn [repeat reference_delays tripled].
  destruct (reference_next_tripled c Hc) as [E H1].
  rewrite E. f_equal. apply IH, H1.
Qed.

Lemma upcoming_constant :
  forall (n : nat) (w : World) (draw : float) (k : nat),
    (forall i : nat, draws w i = draw) ->
    map (draws w) (seq k n) = repeat draw n.
Proof.
  induction n as [|n IH]; intros w draw k Hd; [reflexivity|].
  cbn [seq map repeat]. now rewrite Hd, (IH w draw (S k) Hd).
Qed.

(** C2: with the shared flag set, the delays of the timers requested by [n]
    successive closures are the terms of the recurrence
    [min(max_delay, current_delay * ((draw * jitter) + 1) * multiplier)] run
    over the [n] draws. With the default parameters: two closures with draws 0
    request 2.0 then 4.0; with draws 1, from any delay of at least 1.0, each
    closure requests three times the previous delay capped at 30.0 (for any
    instance with multiplier 2.0, jitter 0.5 and [max_delay] 30.0); from 4.0
    that is 12.0 then 30.0. *)
Theorem delays_follow_reference_recurrence :
  (forall (n : nat) (self : Simple.t) (conn : Connection) (w : World),
     _active w = true ->
     exists self' w',
       closures n self conn w = Returned self' w' /\
       delays w' =
         delays w ++
         reference_delays (Simple.multiplier self) (Simple.max_delay self)
           (Simple.jitter self) (Simple.current_delay self) (upcoming w n)) /\
  delays (final_world (closures 2 Simple.default some_connection (fresh_world true 0))) =
    [2.0; 4.0]%float /\
  (forall (n : nat) (self : Simple.t) (conn : Connection) (w : World),
     Simple.multiplier self = 2.0%float ->
     Simple.max_delay self = 30.0%float ->
     Simple.jitter self = 0.5%float ->
     (1 <=? Simple.current_delay self)%float = true ->
     _active w = true ->
     (forall k : nat, draws w k = 1.0%float) ->
     exists self' w',
       closures n self conn w = Returned self' w' /\
       delays w' = delays w ++ tripled n (Simple.current_delay self)) /\
  delays (final_world
    (closures 2 (Simple.set_current_delay 4.0 Simple.default) some_connection
       (fresh_world true 1))) = [12.0; 30.0]%float.
Proof.
  split; [exact closures_delays|].
  split; [vm_compute; reflexivity|].
  split; [|vm_compute; reflexivity].
  intros n self conn w Hm Hmax Hj Hc Hon Hd.
  destruct (closures_delays n self conn w Hon) as (self' & w' & E & D).
  exists self', w'. split; [exact E|].
  rewrite D, Hm, Hmax, Hj. unfold upcoming.
  rewrite (upcoming_constant n w 1.0%float _ Hd).
  now rewrite reference_delays_tripled.
Qed.

Lemma delays_follow_reference_recurrence_witness :
  (exists self' w',
     closures 2 Simple.default some_connection (fresh_world true 0.5) = Returned self' w' /\
     delays w' =
       delays (fresh_world true 0.5) ++
       reference_delays (Simple.multiplier Simple.default) (Simple.max_delay Simple.default)
         (Simple.jitter Simple.default) (Simple.current_delay Simple.default)
         (upcoming (fresh_world true 0.5) 2)) /\
  (exists self' w',
     closures 5 Simple.default some_connection (fresh_world true 1) = Returned self' w' /\
     delays w' =
       delays (fresh_world true 1) ++ tripled 5 (Simple.current_delay Simple.default)).
Proof.
  split.
  - apply (proj1 delays_follow_reference_recurrence 2%nat Simple.default some_connection
             (fresh_world true 0.5)).
    reflexivity.
  - apply (proj1 (proj2 (proj2 delays_follow_reference_recurrence)) 5%nat Simple.default
             some_connection (fresh_world true 1)); reflexivity.
Defined.

(** ** Bounds on the delay *)

(** The next delay is at most [max_delay], as soon as [max_delay] is a
    number. *)
Lemma reference_next_le_max :
  forall (multiplier max_delay jitter current_delay draw : float),
    (max_delay <=? max_delay)%float = true ->
    (reference_next multiplier max_delay jitter current_delay draw <=? max_delay)%float = true.
Proof.
  intros mult maxd jit cur r Hmax.
  unfold reference_next, py_min. cbv zeta.
  destruct (cur * (r * jit + 1) * mult <? maxd)%float eqn:E.
  - apply Binary64.ltb_leb. exact E.
  - exact Hmax.
Qed.

(** The next delay is not below the current one, when the current one is
    neither negative nor above [max_delay]. *)
Lemma reference_next_above :
  forall (multiplier max_delay jitter current_delay draw : float),
    (1 <=? multiplier)%float = true ->
    (0 <=? jitter)%float = true ->
    (0 <=? draw)%float = true ->
    (0 <=? current_delay)%float = true ->
    (current_delay <=? max_delay)%float = true ->
    (current_delay <=? reference_next multiplier max_delay jitter current_delay draw)%float
      = true.
Proof.
  intros mult maxd jit cur r Hm Hj Hr Hc Hmax.
  unfold reference_next, py_min. cbv zeta.
  destruct (cur * (r * jit + 1) * mult <? maxd)%float eqn:E.
  - destruct (Binary64.backoff_product_above cur r jit mult Hc Hr Hj Hm) as [N|H].
    + rewrite (Binary64.nan_ltb _ maxd N) in E. discriminate E.
    + exact H.
  - exact Hmax.
Qed.

(** A property of the delay that every term of the recurrence keeps is kept
    by any number of active closures, which change nothing else in the
    instance and leave the flag set. *)
Lemma closures_invariant :
  forall (I : float -> Prop) (n : nat) (self : Simple.t) (conn : Connection) (w : World),
    _active w = true ->
    (forall (cur : float) (k : nat),
       I cur ->
       I (reference_next (Simple.multiplier self) (Simple.max_delay self)
            (Simple.jitter self) cur (draws w k))) ->
    I (Simple.current_delay self) ->
    exists self' w',
      closures n self conn w = Returned self' w' /\
      I (Simple.current_delay self') /\
      self' = Simple.set_current_delay (Simple.current_delay self') self /\
      _active w' = true /\
      draws w' = draws w.
Proof.
  intros I n. induction n as [|n IH]; intros self conn w Hon Hstep H0.
  - exists self, w. repeat split; try assumption. destruct self; reflexivity.
  - destruct (on_connection_closed_active self conn w Hon)
      as (w1 & E1 & Hon1 & Hd1 & _ & _).
    cbn [closures]. unfold bind. rewrite E1.
    set (self1 := Simple.set_current_delay _ self) in *.
    destruct (IH self1 conn w1 Hon1) as (self' & w' & E & HI & Hs & Hon' & Hd').
    + intros cur k Hcur. rewrite Hd1. apply Hstep, Hcur.
    + apply Hstep, H0.
    + exists self', w'.
      split; [exact E|]. split; [exact HI|]. split; [|split; [exact Hon'|congruence]].
      rewrite Hs at 1. rewrite Hs at 2. reflexivity.
Qed.

(** The bounds on an instance: its delay is between its [initial_retry_delay]
    and its [max_delay], and its parameters are those of [self0]. *)
Lemma invoke_within_bounds :
  forall (h : Hook) (self0 self : Simple.t) (w : World),
    (0 <? Simple.initial_retry_delay self0)%float = true ->
    (1 <? Simple.multiplier self0)%float = true ->
    (Simple.initial_retry_delay self0 <=? Simple.max_delay self0)%float = true ->
    (0 <=? Simple.jitter self0)%float = true ->
    (forall k : nat, (0 <=? draws w k)%float = true /\ (draws w k <? 1)%float = true) ->
    self = Simple.set_attempts_since_last_success (Simple.attempts_since_last_success self)
             (Simple.set_current_delay (Simple.current_delay self) self0) ->
    (Simple.initial_retry_delay self0 <=? Simple.current_delay self)%float = true ->
    (Simple.current_delay self <=? Simple.max_delay self0)%float = true ->
    exists self' w',
      invoke h self w = Returned self' w' /\
      draws w' = draws w /\
      self' = Simple.set_attempts_since_last_success (Simple.attempts_since_last_success self')
                (Simple.set_current_delay (Simple.current_delay self') self0) /\
      (Simple.initial_retry_delay self0 <=? Simple.current_delay self')%float = true /\
      (Simple.current_delay self' <=? Simple.max_delay self0)%float = true.
Proof.
  intros h self0 self w Hird Hmult Hmax Hjit Hdraws Hs Hlo Hhi.
  assert (Hp : Simple.initial_retry_delay self = Simple.initial_retry_delay self0 /\
               Simple.multiplier self = Simple.multiplier self0 /\
               Simple.max_delay self = Simple.max_delay self0 /\
               Simple.jitter self = Simple.jitter self0).
  { rewrite Hs. cbn. repeat split. }
  destruct Hp as (Pi & Pm & Px & Pj).
  assert (Hframe : forall (c : float) (a : Z),
            Simple.set_attempts_since_last_success a (Simple.set_current_delay c self) =
            Simple.set_attempts_since_last_success a (Simple.set_current_delay c self0)).
  { intros c a. unfold Simple.set_attempts_since_last_success, Simple.set_current_delay.
    cbn. now rewrite Pi, Pm, Px, Pj. }
  destruct h as [conn|conn err|conn|conn|conn|conn]; cbn [invoke].
  - (* on_connect_attempt *)
    eexists. eexists. split; [reflexivity|]. cbn.
    split; [reflexivity|]. split; [|split; assumption].
    apply (Hframe (Simple.current_delay self)).
  - (* on_connect_attempt_failure *)
    eexists. eexists. split; [reflexivity|]. cbn. repeat split; assumption.
  - exists self, w. repeat split; assumption.
  - exists self, w. repeat split; assumption.
  - (* on_connection_open *)
    eexists. eexists. split; [reflexivity|]. cbn.
    split; [reflexivity|]. split; [apply (Hframe (Simple.initial_retry_delay self))|].
    rewrite Pi. split; [exact (Binary64.leb_refl_l _ _ Hmax)|exact Hmax].
  - (* on_connection_closed *)
    change (on_connection_closed self conn w)
      with (Simple.on_connection_closed self conn w).
    destruct (_active w) eqn:Hon.
    + destruct (on_connection_closed_active self conn w Hon)
        as (w1 & E1 & _ & Hd1 & _ & _).
      rewrite E1. eexists. eexists. split; [reflexivity|].
      split; [exact Hd1|]. cbn.
      split; [apply Hframe|].
      rewrite Pm, Px, Pj. split.
      * apply Binary64.leb_trans with (b := Simple.current_delay self); [exact Hlo|].
        apply reference_next_above; try assumption.
        -- apply Binary64.ltb_leb, Hmult.
        -- apply Hdraws.
        -- apply Binary64.leb_trans with (b := Simple.initial_retry_delay self0);
             [|exact Hlo].
           apply Binary64.ltb_leb, Hird.
      * apply reference_next_le_max. exact (Binary64.leb_refl_r _ _ Hmax).
    + exists self, w. split.
      * unfold Simple.on_connection_closed, bind, ReconnectionStrategy.is_active.
        rewrite Hon. reflexivity.
      * repeat split; assumption.
Qed.

Lemma invoke_all_within_bounds :
  forall (hs : list Hook) (self0 self : Simple.t) (w : World),
    (0 <? Simple.initial_retry_delay self0)%float = true ->
    (1 <? Simple.multiplier self0)%float = true ->
    (Simple.initial_retry_delay self0 <=? Simple.max_delay self0)%float = true ->
    (0 <=? Simple.jitter self0)%float = true ->
    (forall k : nat, (0 <=? draws w k)%float = true /\ (draws w k <? 1)%float = true) ->
    self = Simple.set_attempts_since_last_success (Simple.attempts_since_last_success self)
             (Simple.set_current_delay (Simple.current_delay self) self0) ->
    (Simple.initial_retry_delay self0 <=? Simple.current_delay self)%float = true ->
    (Simple.current_delay self <=? Simple.max_delay self0)%float = true ->
    exists self' w',
      invoke_all hs self w = Returned self' w' /\
      (Simple.initial_retry_delay self0 <=? Simple.current_delay self')%float = true /\
      (Simple.current_delay self' <=? Simple.max_delay self0)%float = true.
Proof.
  induction hs as [|h hs IH]; intros self0 self w Hird Hmult Hmax Hjit Hdraws Hs Hlo Hhi.
  - exists self, w. repeat split; assumption.
  - destruct (invoke_within_bounds h self0 self w Hird Hmult Hmax Hjit Hdraws Hs Hlo Hhi)
      as (self1 & w1 & E1 & Hd1 & Hs1 & Hlo1 & Hhi1).
    cbn [invoke_all]. unfold bind. rewrite E1.
    apply (IH self0 self1 w1); try assumption.
    intro k. rewrite Hd1. apply Hdraws.
Qed.

(** C1: for an instance built with [initial_retry_delay > 0], [multiplier > 1],
    [max_delay >= initial_retry_delay] and [jitter >= 0], with the shared flag
    set and every draw in [0, 1), any number of successive calls of
    [on_connection_closed] return normally and leave
    [initial_retry_delay <= current_delay <= max_delay]; so does any sequence
    of invocations of the six hooks. *)
Theorem current_delay_within_bounds :
  forall (initial_retry_delay multiplier max_delay jitter : float)
         (n : nat) (hs : list Hook) (conn : Connection) (w : World),
    (0 <? initial_retry_delay)%float = true ->
    (1 <? multiplier)%float = true ->
    (initial_retry_delay <=? max_delay)%float = true ->
    (0 <=? jitter)%float = true ->
    (forall k : nat, (0 <=? draws w k)%float = true /\ (draws w k <? 1)%float = true) ->
    _active w = true ->
    (exists self' w',
       closures n (Simple.__init__ initial_retry_delay multiplier max_delay jitter) conn w =
         Returned self' w' /\
       (initial_retry_delay <=? Simple.current_delay self')%float = true /\
       (Simple.current_delay self' <=? max_delay)%float = true) /\
    (exists self' w',
       invoke_all hs (Simple.__init__ initial_retry_delay multiplier max_delay jitter) w =
         Returned self' w' /\
       (initial_retry_delay <=? Simple.current_delay self')%float = true /\
       (Simple.current_delay self' <=? max_delay)%float = true).
Proof.
  intros ird mult maxd jit n hs conn w Hird Hmult Hmax Hjit Hdraws Hon.
  split.
  - destruct (closures_invariant
                (fun cur => (ird <=? cur)%float = true /\ (cur <=? maxd)%float = true)
                n (Simple.__init__ ird mult maxd jit) conn w Hon)
      as (self' & w' & E & [Hlo Hhi] & _).
    + cbn. intros cur k [Hlo Hhi]. split.
      * apply Binary64.leb_trans with (b := cur); [exact Hlo|].
        apply reference_next_above; try assumption.
        -- apply Binary64.ltb_leb, Hmult.
        -- apply Hdraws.
        -- apply Binary64.leb_trans with (b := ird); [|exact Hlo].
           apply Binary64.ltb_leb, Hird.
      * apply reference_next_le_max. exact (Binary64.leb_refl_r _ _ Hmax).
    + cbn. split; [|exact Hmax]. exact (Binary64.leb_refl_l _ _ Hmax).
    + exists self', w'. auto.
  - apply (invoke_all_within_bounds hs (Simple.__init__ ird mult maxd jit)
             (Simple.__init__ ird mult maxd jit) w); try assumption.
    + reflexivity.
    + exact (Binary64.leb_refl_l _ _ Hmax).
Qed.

Lemma current_delay_within_bounds_witness :
  (exists self' w',
     closures 3 (Simple.__init__ 1.0 2.0 30.0 0.5) some_connection (fresh_world true 0.75) =
       Returned self' w' /\
     (1.0 <=? Simple.current_delay self')%float = true /\
     (Simple.current_delay self' <=? 30.0)%float = true) /\
  (exists self' w',
     invoke_all
       [ConnectAttempt some_connection; ConnectionClosed some_connection;
        ConnectionOpen some_connection; ConnectionClosed some_connection]
       (Simple.__init__ 1.0 2.0 30.0 0.5) (fresh_world true 0.75) =
       Returned self' w' /\
     (1.0 <=? Simple.current_delay self')%float = true /\
     (Simple.current_delay self' <=? 30.0)%float = true).
Proof.
  apply (current_delay_within_bounds 1.0 2.0 30.0 0.5 3
           [ConnectAttempt some_connection; ConnectionClosed some_connection;
            ConnectionOpen some_connection; ConnectionClosed some_connection]
           some_connection (fresh_world true 0.75)); try reflexivity.
  intro k. split; reflexivity.
Defined.

(** ** Monotonicity of the delay *)

(** C9, as amended: on an instance whose parameters and [current_delay] are
    floats, with [multiplier >= 1], [jitter >= 0], every draw in [0, 1) and
    the shared flag set, starting from a state where
    [0 <= current_delay <= max_delay], each call of [on_connection_closed] in a
    sequence of such calls leaves a [current_delay] that is not below the one
    it found. *)
Theorem current_delay_non_decreasing :
  forall (n : nat) (self : Simple.t) (conn : Connection) (w : World),
    (1 <=? Simple.multiplier self)%float = true ->
    (0 <=? Simple.jitter self)%float = true ->
    (forall k : nat, (0 <=? draws w k)%float = true /\ (draws w k <? 1)%float = true) ->
    _active w = true ->
    (0 <=? Simple.current_delay self)%float = true ->
    (Simple.current_delay self <=? Simple.max_delay self)%float = true ->
    exists before w1 after w2,
      closures n self conn w = Returned before w1 /\
      Simple.on_connection_closed before conn w1 = Returned after w2 /\
      (Simple.current_delay before <=? Simple.current_delay after)%float = true.
Proof.
  intros n self conn w Hmult Hjit Hdraws Hon Hc Hmax.
  destruct (closures_invariant
              (fun cur => (0 <=? cur)%float = true /\
                          (cur <=? Simple.max_delay self)%float = true)
              n self conn w Hon)
    as (s1 & w1 & E1 & [Hlo Hhi] & Hs & Hon1 & Hd1).
  - intros cur k [Hlo Hhi]. split.
    + apply Binary64.leb_trans with (b := cur); [exact Hlo|].
      apply reference_next_above; try assumption. apply Hdraws.
    + apply reference_next_le_max. exact (Binary64.leb_refl_r _ _ Hmax).
  - split; assumption.
  - destruct (on_connection_closed_active s1 conn w1 Hon1) as (w2 & E2 & _).
    exists s1, w1. eexists. exists w2.
    split; [exact E1|]. split; [exact E2|].
    rewrite Hs. cbn.
    apply reference_next_above; try assumption.
    rewrite Hd1. apply Hdraws.
Qed.

Lemma current_delay_non_decreasing_witness :
  exists before w1 after w2,
    closures 2 Simple.default some_connection (fresh_world true 0.75) =
      Returned before w1 /\
    Simple.on_connection_closed before some_connection w1 = Returned after w2 /\
    (Simple.current_delay before <=? Simple.current_delay after)%float = true.
Proof.
  apply (current_delay_non_decreasing 2 Simple.default some_connection
           (fresh_world true 0.75)); try reflexivity.
  intro k. split; reflexivity.
Defined.

(** C9, as first stated, asks nothing of [current_delay] and [max_delay]. It
    fails on an instance built with [max_delay] below [initial_retry_delay],
    whose first closure lowers the delay from 10.0 to 5.0 although
    [multiplier >= 1], [jitter >= 0], the draw is in [0, 1) and the shared flag
    is set; and on an instance built with a negative [initial_retry_delay],
    whose first closure lowers the delay from -1.0 to -2.25. *)
Lemma current_delay_can_decrease :
  (1 <=? Simple.multiplier (Simple.__init__ 10.0 2.0 5.0 0.5))%float = true /\
  (0 <=? Simple.jitter (Simple.__init__ 10.0 2.0 5.0 0.5))%float = true /\
  (0 <=? draws (fresh_world true 0.25) (drawn (fresh_world true 0.25)))%float = true /\
  (draws (fresh_world true 0.25) (drawn (fresh_world true 0.25)) <? 1)%float = true /\
  _active (fresh_world true 0.25) = true /\
  Simple.current_delay (Simple.__init__ 10.0 2.0 5.0 0.5) = 10.0%float /\
  (exists w',
     Simple.on_connection_closed (Simple.__init__ 10.0 2.0 5.0 0.5) some_connection
       (fresh_world true 0.25) =
       Returned (Simple.set_current_delay 5.0 (Simple.__init__ 10.0 2.0 5.0 0.5)) w') /\
  (10.0 <=? 5.0)%float = false /\
  (exists w',
     Simple.on_connection_closed (Simple.__init__ (-1.0) 2.0 30.0 0.5) some_connection
       (fresh_world true 0.25) =
       Returned (Simple.set_current_delay (-2.25) (Simple.__init__ (-1.0) 2.0 30.0 0.5)) w') /\
  (-1.0 <=? -2.25)%float = false /\
  ~ (forall (self : Simple.t) (conn : Connection) (w : World),
       (1 <=? Simple.multiplier self)%float = true ->
       (0 <=? Simple.jitter self)%float = true ->
       (0 <=? draws w (drawn w))%float = true ->
       (draws w (drawn w) <? 1)%float = true ->
       _active w = true ->
       exists after w',
         Simple.on_connection_closed self conn w = Returned after w' /\
         (Simple.current_delay self <=? Simple.current_delay after)%float = true).
Proof.
  repeat (split; [reflexivity|]).
  split; [eexists; vm_compute; reflexivity|].
  split; [reflexivity|].
  split; [eexists; vm_compute; reflexivity|].
  split; [reflexivity|].
  intro H.
  destruct (H (Simple.__init__ 10.0 2.0 5.0 0.5) some_connection (fresh_world true 0.25))
    as (after & w' & E & Hle); try reflexivity.
  vm_compute in E. inversion E; subst after. vm_compute in Hle. discriminate Hle.
Qed.

(** * Further properties of the hooks *)

(** ** What a sequence of hooks asks of the collaborators *)



(** ** The attempt counter *)

Lemma invoke_attempts :
  forall (h : Hook) (self : Simple.t) (w : World),
    exists self' w',
      invoke h self w = Returned self' w' /\
      Simple.attempts_since_last_success self' =
        if is_connection_open h then 0
        else Simple.attempts_since_last_success self +
             (if is_connect_attempt h then 1 else 0).
Proof.
  intros h self w.
  destruct h as [conn|conn err|conn|conn|conn|conn]; cbn [invoke];
    cbn [is_connection_open is_connect_attempt];
    try (eexists; eexists; split; [reflexivity|]; cbn; lia).
  change (on_connection_closed self conn w)
    with (Simple.on_connection_closed self conn w).
  unfold Simple.on_connection_closed, bind, ReconnectionStrategy.is_active.
  destruct (_active w); cbn.
  - eexists. eexists. split; [reflexivity|]. cbn. lia.
  - exists self, w. split; [reflexivity|]. lia.
Qed.

Lemma after_last_open_none :
  forall hs : list Hook,
    existsb is_connection_open hs = false -> after_last_open hs = hs.
Proof.
  intros [|h hs] H; [reflexivity|].
  cbn [existsb] in H. apply orb_false_iff in H. destruct H as [Hh Hhs].
  cbn [after_last_open]. now rewrite Hhs, Hh.
Qed.

(** X2: after any sequence of hook invocations, [attempts_since_last_success]
    is the number of [on_connect_attempt] calls made since the last
    [on_connection_open] of the sequence; when the sequence has no
    [on_connection_open], that number is added to the value the counter had
    before. *)
Theorem attempts_counts_since_last_open :
  forall (hs : list Hook) (self : Simple.t) (w : World),
    exists self' w',
      invoke_all hs self w = Returned self' w' /\
      Simple.attempts_since_last_success self' =
        (if existsb is_connection_open hs then 0
         else Simple.attempts_since_last_success self) +
        Z.of_nat (count is_connect_attempt (after_last_open hs)).
Proof.
  induction hs as [|h hs IH]; intros self w.
  - exists self, w. split; [reflexivity|]. cbn. lia.
  - destruct (invoke_attempts h self w) as (s1 & w1 & E1 & A1).
    destruct (IH s1 w1) as (s2 & w2 & E2 & A2).
    exists s2, w2. cbn [invoke_all]. unfold bind. rewrite E1.
    split; [exact E2|].
    rewrite A2, A1. cbn [existsb after_last_open].
    destruct (existsb is_connection_open hs) eqn:Hhs.
    + rewrite orb_true_r. reflexivity.
    + rewrite orb_false_r, (after_last_open_none hs Hhs).
      destruct (is_connection_open h) eqn:Hh; [reflexivity|].
      unfold count. cbn [filter].
      destruct (is_connect_attempt h); cbn [List.length]; lia.
Qed.

(** ** The parameters *)

(** A hook changes at most [current_delay] and the attempt counter. *)
Lemma invoke_parameters :
  forall (h : Hook) (self : Simple.t) (w : World),
    exists self' w',
      invoke h self w = Returned self' w' /\
      self' =
        Simple.set_attempts_since_last_success (Simple.attempts_since_last_success self')
          (Simple.set_current_delay (Simple.current_delay self') self).
Proof.
  intros h self w.
  destruct h as [conn|conn err|conn|conn|conn|conn]; cbn [invoke];
    try (eexists; eexists; split; [reflexivity|]; destruct self; reflexivity).
  change (on_connection_closed self conn w)
    with (Simple.on_connection_closed self conn w).
  unfold Simple.on_connection_closed, bind, ReconnectionStrategy.is_active.
  destruct (_active w); cbn.
  - eexists. eexists. split; [reflexivity|]. destruct self; reflexivity.
  - exists self, w. split; [reflexivity|]. destruct self; reflexivity.
Qed.

(** X3: no sequence of hook invocations changes [initial_retry_delay],
    [multiplier], [max_delay] or [jitter]; so an [on_connection_open] that
    follows it leaves the instance as [_reset] would have left the instance
    the sequence started from, and an instance fresh from [__init__] comes
    back to what [__init__] built. *)
Theorem parameters_never_change :
  forall (hs : list Hook) (self : Simple.t) (conn : Connection) (w : World)
         (initial_retry_delay multiplier max_delay jitter : float),
    (exists self' w',
       invoke_all hs self w = Returned self' w' /\
       Simple.initial_retry_delay self' = Simple.initial_retry_delay self /\
       Simple.multiplier self' = Simple.multiplier self /\
       Simple.max_delay self' = Simple.max_delay self /\
       Simple.jitter self' = Simple.jitter self /\
       Simple.on_connection_open self' conn w' = Returned (Simple._reset self) w') /\
    Simple._reset (Simple.__init__ initial_retry_delay multiplier max_delay jitter) =
      Simple.__init__ initial_retry_delay multiplier max_delay jitter.
Proof.
  intros hs self conn w ird mult maxd jit. split; [|reflexivity].
  assert (H : exists self' w',
             invoke_all hs self w = Returned self' w' /\
             self' =
               Simple.set_attempts_since_last_success
                 (Simple.attempts_since_last_success self')
                 (Simple.set_current_delay (Simple.current_delay self') self)).
  { revert self w. induction hs as [|h hs IH]; intros self w.
    - exists self, w. split; [reflexivity|]. destruct self; reflexivity.
    - destruct (invoke_parameters h self w) as (s1 & w1 & E1 & P1).
      destruct (IH s1 w1) as (s2 & w2 & E2 & P2).
      exists s2, w2. cbn [invoke_all]. unfold bind. rewrite E1.
      split; [exact E2|]. rewrite P2 at 1. rewrite P1. reflexivity. }
  destruct H as (self' & w' & E & P).
  exists self', w'. split; [exact E|].
  rewrite P. repeat split.
Qed.

(** ** The cap *)

(** Nothing compares below a [max_delay] that is not a number. *)
Lemma ltb_nan_r :
  forall t m : float, (m <=? m)%float = false -> (t <? m)%float = false.
Proof.
  intros t m H. rewrite leb_spec in H. rewrite ltb_spec.
  destruct (Prim2SF m) as [s|s| |s mm em] eqn:E.
  - discriminate H.
  - destruct s; discriminate H.
  - unfold SFltb, SFcompare. destruct (Prim2SF t); reflexivity.
  - rewrite Binary64.SFleb_refl in H; [discriminate H|discriminate].
Qed.

(** X4: whatever the parameters, the current delay and the draw are (negative,
    infinite or not a number), an active closure stores and hands to the timer
    a delay that is at most [max_delay], as soon as [max_delay] is a number;
    when [max_delay] is not a number, the delay stored is [max_delay]
    itself. *)
Theorem delay_capped_in_any_state :
  forall (self : Simple.t) (conn : Connection) (w : World),
    _active w = true ->
    exists self' w' d,
      Simple.on_connection_closed self conn w = Returned self' w' /\
      Simple.current_delay self' = d /\
      timeouts w' =
        timeouts w ++
        [{| timer_owner := conn; timer_delay := d; timer_callback := _reconnect conn |}] /\
      ((Simple.max_delay self <=? Simple.max_delay self)%float = true ->
       (d <=? Simple.max_delay self)%float = true) /\
      ((Simple.max_delay self <=? Simple.max_delay self)%float = false ->
       d = Simple.max_delay self).
Proof.
  intros self conn w Hon.
  destruct (on_connection_closed_active self conn w Hon) as (w' & E & _ & _ & _ & T).
  eexists. exists w'. eexists. split; [exact E|].
  split; [reflexivity|]. split; [exact T|]. cbn [Simple.set_current_delay Simple.current_delay].
  split.
  - apply reference_next_le_max.
  - intro Hnan. unfold reference_next, py_min. cbv zeta.
    now rewrite (ltb_nan_r _ _ Hnan).
Qed.

Lemma delay_capped_in_any_state_witness :
  exists self' w' d,
    Simple.on_connection_closed (Simple.__init__ (-3.0) nan 7.0 infinity) some_connection
      (fresh_world true 0.5) = Returned self' w' /\
    Simple.current_delay self' = d /\
    timeouts w' =
      timeouts (fresh_world true 0.5) ++
      [{| timer_owner := some_connection; timer_delay := d;
          timer_callback := _reconnect some_connection |}] /\
    ((Simple.max_delay (Simple.__init__ (-3.0) nan 7.0 infinity) <=?
      Simple.max_delay (Simple.__init__ (-3.0) nan 7.0 infinity))%float = true ->
     (d <=? Simple.max_delay (Simple.__init__ (-3.0) nan 7.0 infinity))%float = true) /\
    ((Simple.max_delay (Simple.__init__ (-3.0) nan 7.0 infinity) <=?
      Simple.max_delay (Simple.__init__ (-3.0) nan 7.0 infinity))%float = false ->
     d = Simple.max_delay (Simple.__init__ (-3.0) nan 7.0 infinity)).
Proof.
  apply (delay_capped_in_any_state (Simple.__init__ (-3.0) nan 7.0 infinity)
           some_connection (fresh_world true 0.5)).
  reflexivity.
Defined.

(** ** Saturation *)

Lemma reference_next_at_max :
  forall (multiplier max_delay jitter draw : float),
    (1 <=? multiplier)%float = true ->
    (0 <=? jitter)%float = true ->
    (0 <=? draw)%float = true ->
    (0 <=? max_delay)%float = true ->
    reference_next multiplier max_delay jitter max_delay draw = max_delay.
Proof.
  intros mult maxd jit r Hm Hj Hr Hmax.
  unfold reference_next, py_min. cbv zeta.
  destruct (Binary64.backoff_product_above maxd r jit mult Hmax Hr Hj Hm) as [N|H].
  - now rewrite (Binary64.nan_ltb _ maxd N).
  - now rewrite (Binary64.leb_ltb_false _ _ H).
Qed.

Lemma upcoming_length :
  forall (w : World) (n : nat), List.length (upcoming w n) = n.
Proof.
  intros w n. unfold upcoming. now rewrite length_map, length_seq.
Qed.

Lemma upcoming_Forall :
  forall (P : float -> Prop) (w : World) (n : nat),
    (forall k : nat, P (draws w k)) -> Forall P (upcoming w n).
Proof.
  intros P w n H. unfold upcoming. apply Forall_map, Forall_forall. intros k _. apply H.
Qed.

Lemma reference_delays_at_max :
  forall (multiplier max_delay jitter : float) (ds : list float),
    (1 <=? multiplier)%float = true ->
    (0 <=? jitter)%float = true ->
    (0 <=? max_delay)%float = true ->
    Forall (fun r => (0 <=? r)%float = true) ds ->
    reference_delays multiplier max_delay jitter max_delay ds =
      repeat max_delay (List.length ds).
Proof.
  intros mult maxd jit ds Hm Hj Hmax Hds.
  induction Hds as [|r ds Hr _ IH]; [reflexivity|].
  cbn [reference_delays List.length repeat].
  rewrite (reference_next_at_max mult maxd jit r Hm Hj Hr Hmax).
  now rewrite IH.
Qed.

(** X5: on an instance whose parameters and [current_delay] are floats, once
    [current_delay] has reached a [max_delay] that is not negative, with
    [multiplier >= 1], [jitter >= 0] and draws in [0, 1), every further active
    closure leaves it there and requests a timer of exactly [max_delay]. *)
Theorem saturated_delay_stays :
  forall (n : nat) (self : Simple.t) (conn : Connection) (w : World),
    (1 <=? Simple.multiplier self)%float = true ->
    (0 <=? Simple.jitter self)%float = true ->
    (0 <=? Simple.max_delay self)%float = true ->
    (forall k : nat, (0 <=? draws w k)%float = true /\ (draws w k <? 1)%float = true) ->
    _active w = true ->
    Simple.current_delay self = Simple.max_delay self ->
    exists self' w',
      closures n self conn w = Returned self' w' /\
      Simple.current_delay self' = Simple.max_delay self /\
      delays w' = delays w ++ repeat (Simple.max_delay self) n.
Proof.
  intros n self conn w Hm Hj Hmax Hdraws Hon Hsat.
  destruct (closures_invariant (fun cur => cur = Simple.max_delay self)
              n self conn w Hon) as (s1 & w1 & E1 & I1 & _).
  - intros cur k ->. apply reference_next_at_max; try assumption. apply Hdraws.
  - exact Hsat.
  - destruct (closures_delays n self conn w Hon) as (s2 & w2 & E2 & D2).
    rewrite E1 in E2. injection E2 as <- <-.
    exists s1, w1. split; [exact E1|]. split; [exact I1|].
    rewrite D2, Hsat, reference_delays_at_max, upcoming_length; try assumption; [reflexivity|].
    apply upcoming_Forall. intro k. apply Hdraws.
Qed.

Lemma saturated_delay_stays_witness :
  exists self' w',
    closures 4 (Simple.set_current_delay 30.0 Simple.default) some_connection
      (fresh_world true 0.75) = Returned self' w' /\
    Simple.current_delay self' =
      Simple.max_delay (Simple.set_current_delay 30.0 Simple.default) /\
    delays w' =
      delays (fresh_world true 0.75) ++
      repeat (Simple.max_delay (Simple.set_current_delay 30.0 Simple.default)) 4.
Proof.
  apply (saturated_delay_stays 4 (Simple.set_current_delay 30.0 Simple.default)
           some_connection (fresh_world true 0.75)); try reflexivity.
  intro k. split; reflexivity.
Defined.

(** With multiplier 2.0, the product computed by [new_delay] is at least twice
    any number from 1.0 upwards that the current delay is not below, unless it
    is not a number. *)
Lemma backoff_product_doubles :
  forall (k cur r j : float),
    (1 <=? k)%float = true ->
    (k <=? cur)%float = true ->
    (0 <=? r)%float = true ->
    (0 <=? j)%float = true ->
    Prim2SF (cur * ((r * j) + 1) * 2.0)%float = S754_nan \/
    (k * 2.0 <=? cur * ((r * j) + 1) * 2.0)%float = true.
Proof.
  intros k cur r j Hk Hkc Hr Hj.
  assert (H0 : (0 <=? cur)%float = true).
  { apply Binary64.leb_trans with (b := k); [|exact Hkc].
    apply Binary64.leb_trans with (b := 1%float); [reflexivity|exact Hk]. }
  destruct (Binary64.mul_nonneg r j Hr Hj) as [N|P].
  { left. apply Binary64.nan_mul_l, Binary64.nan_mul_r, Binary64.nan_add_l, N. }
  pose proof (Binary64.add_one_above (r * j) P) as Hz.
  destruct (Binary64.mul_above cur (r * j + 1) H0 Hz) as [N|Hy].
  { left. apply Binary64.nan_mul_l, N. }
  right. apply Binary64.mul_two_monotone; [exact Hk|].
  exact (Binary64.leb_trans _ _ _ Hkc Hy).
Qed.

(** One closure takes the delay from one floor to the next. *)
Lemma reference_next_floor :
  forall (n : nat) (jitter cur draw : float),
    (0 <=? jitter)%float = true ->
    (0 <=? draw)%float = true ->
    (backoff_floor n <=? cur)%float = true ->
    ((5 <= n)%nat -> cur = 30.0%float) ->
    (backoff_floor (S n) <=? reference_next 2.0 30.0 jitter cur draw)%float = true /\
    ((5 <= S n)%nat -> reference_next 2.0 30.0 jitter cur draw = 30.0%float).
Proof.
  intros n jit cur r Hj Hr Hfloor Hsat.
  destruct (Nat.le_gt_cases 5 n) as [H5|H5].
  - rewrite (Hsat H5).
    rewrite (reference_next_at_max 2.0 30.0 jit r eq_refl Hj Hr eq_refl).
    split; [|reflexivity].
    do 5 (destruct n as [|n]; [lia|]). reflexivity.
  - assert (Hk : (1 <=? backoff_floor n)%float = true).
    { do 5 (destruct n as [|n]; [reflexivity|]). lia. }
    unfold reference_next, py_min. cbv zeta.
    destruct (backoff_product_doubles (backoff_floor n) cur r jit Hk Hfloor Hr Hj)
      as [N|H].
    + rewrite (Binary64.nan_ltb _ 30.0%float N).
      split; [|reflexivity].
      do 5 (destruct n as [|n]; [reflexivity|]). lia.
    + destruct (cur * (r * jit + 1) * 2.0 <? 30.0)%float eqn:E.
      * assert (H30 : (backoff_floor n * 2.0 <=? 30.0)%float = true).
        { apply Binary64.leb_trans with (b := (cur * (r * jit + 1) * 2.0)%float);
            [exact H|]. apply Binary64.ltb_leb, E. }
        do 4 (destruct n as [|n]; [split; [exact H|lia]|]).
        destruct n as [|n]; [discriminate H30|lia].
      * split; [|reflexivity].
        do 5 (destruct n as [|n]; [reflexivity|]). lia.
Qed.

Lemma closures_floor :
  forall (n j : nat) (self : Simple.t) (conn : Connection) (w : World),
    Simple.multiplier self = 2.0%float ->
    Simple.max_delay self = 30.0%float ->
    (0 <=? Simple.jitter self)%float = true ->
    (forall k : nat, (0 <=? draws w k)%float = true /\ (draws w k <? 1)%float = true) ->
    _active w = true ->
    (backoff_floor j <=? Simple.current_delay self)%float = true ->
    ((5 <= j)%nat -> Simple.current_delay self = 30.0%float) ->
    exists self' w',
      closures n self conn w = Returned self' w' /\
      (backoff_floor (j + n) <=? Simple.current_delay self')%float = true /\
      ((5 <= j + n)%nat -> Simple.current_delay self' = 30.0%float).
Proof.
  induction n as [|n IH]; intros j self conn w Hm Hmax Hj Hdraws Hon Hfloor Hsat.
  - exists self, w. rewrite Nat.add_0_r. repeat split; assumption.
  - destruct (on_connection_closed_active self conn w Hon)
      as (w1 & E1 & Hon1 & Hd1 & _ & _).
    cbn [closures]. unfold bind. rewrite E1. rewrite Hm, Hmax.
    destruct (reference_next_floor j (Simple.jitter self) (Simple.current_delay self)
                (draws w (drawn w)) Hj (proj1 (Hdraws _)) Hfloor Hsat) as [F1 S1].
    replace (j + S n)%nat with (S j + n)%nat by lia.
    apply IH; try assumption.
    intro k. rewrite Hd1. apply Hdraws.
Qed.

(** X6: with multiplier 2.0 and [max_delay] 30.0 (the defaults), any
    [jitter >= 0], draws in [0, 1) and the shared flag set, successive closures
    starting from a delay of at least 1.0 leave at least 2.0, 4.0, 8.0 and
    16.0, and from the fifth closure on exactly 30.0, whatever the draws
    are. *)
Theorem default_backoff_saturates :
  forall (n : nat) (self : Simple.t) (conn : Connection) (w : World),
    Simple.multiplier self = 2.0%float ->
    Simple.max_delay self = 30.0%float ->
    (0 <=? Simple.jitter self)%float = true ->
    (1 <=? Simple.current_delay self)%float = true ->
    (forall k : nat, (0 <=? draws w k)%float = true /\ (draws w k <? 1)%float = true) ->
    _active w = true ->
    exists self' w',
      closures n self conn w = Returned self' w' /\
      (backoff_floor n <=? Simple.current_delay self')%float = true /\
      ((5 <= n)%nat -> Simple.current_delay self' = 30.0%float).
Proof.
  intros n self conn w Hm Hmax Hj Hc Hdraws Hon.
  apply (closures_floor n 0 self conn w); try assumption. lia.
Qed.

Lemma default_backoff_saturates_witness :
  exists self' w',
    closures 6 Simple.default some_connection (fresh_world true 0.125) = Returned self' w' /\
    (backoff_floor 6 <=? Simple.current_delay self')%float = true /\
    ((5 <= 6)%nat -> Simple.current_delay self' = 30.0%float).
Proof.
  apply (default_backoff_saturates 6 Simple.default some_connection
           (fresh_world true 0.125)); try reflexivity.
  intro k. split; reflexivity.
Defined.

(** ** The timers of a run of closures *)

Lemma reference_delays_nondecreasing :
  forall (multiplier max_delay jitter : float) (ds : list float) (cur : float),
    (1 <=? multiplier)%float = true ->
    (0 <=? jitter)%float = true ->
    Forall (fun r => (0 <=? r)%float = true) ds ->
    (0 <=? cur)%float = true ->
    (cur <=? max_delay)%float = true ->
    nondecreasing cur (reference_delays multiplier max_delay jitter cur ds) /\
    Forall (fun d => (d <=? max_delay)%float = true)
      (reference_delays multiplier max_delay jitter cur ds) /\
    List.length (reference_delays multiplier max_delay jitter cur ds) = List.length ds.
Proof.
  intros mult maxd jit ds cur Hm Hj Hds. revert cur.
  induction Hds as [|r ds Hr _ IH]; intros cur Hc Hmax.
  - repeat split. constructor.
  - cbn [reference_delays nondecreasing List.length].
    pose proof (reference_next_above mult maxd jit cur r Hm Hj Hr Hc Hmax) as Hup.
    pose proof (reference_next_le_max mult maxd jit cur r
                  (Binary64.leb_refl_r _ _ Hmax)) as Hcap.
    destruct (IH _ (Binary64.leb_trans _ _ _ Hc Hup) Hcap) as (S1 & F1 & L1).
    repeat split; try assumption.
    + constructor; assumption.
    + now rewrite L1.
Qed.

(** X7: on an instance whose parameters and [current_delay] are floats, with
    [multiplier >= 1], [jitter >= 0], draws in [0, 1), the shared flag set and
    [0 <= current_delay <= max_delay], [n] successive closures request exactly
    [n] timers, after the pending ones; their delays never decrease from one
    to the next, starting at or above the delay the run found, and none
    exceeds [max_delay]. *)
Theorem timers_nondecreasing_and_capped :
  forall (n : nat) (self : Simple.t) (conn : Connection) (w : World),
    (1 <=? Simple.multiplier self)%float = true ->
    (0 <=? Simple.jitter self)%float = true ->
    (forall k : nat, (0 <=? draws w k)%float = true /\ (draws w k <? 1)%float = true) ->
    _active w = true ->
    (0 <=? Simple.current_delay self)%float = true ->
    (Simple.current_delay self <=? Simple.max_delay self)%float = true ->
    exists self' w' ds,
      closures n self conn w = Returned self' w' /\
      delays w' = delays w ++ ds /\
      List.length ds = n /\
      nondecreasing (Simple.current_delay self) ds /\
      Forall (fun d => (d <=? Simple.max_delay self)%float = true) ds.
Proof.
  intros n self conn w Hm Hj Hdraws Hon Hc Hmax.
  destruct (closures_delays n self conn w Hon) as (self' & w' & E & D).
  destruct (reference_delays_nondecreasing (Simple.multiplier self) (Simple.max_delay self)
              (Simple.jitter self) (upcoming w n) (Simple.current_delay self) Hm Hj)
    as (S1 & F1 & L1); try assumption.
  { apply upcoming_Forall. intro k. apply Hdraws. }
  exists self', w'. eexists. split; [exact E|]. split; [exact D|].
  rewrite L1, upcoming_length. repeat split; assumption.
Qed.

Lemma timers_nondecreasing_and_capped_witness :
  exists self' w' ds,
    closures 4 Simple.default some_connection (fresh_world true 0.375) = Returned self' w' /\
    delays w' = delays (fresh_world true 0.375) ++ ds /\
    List.length ds = 4%nat /\
    nondecreasing (Simple.current_delay Simple.default) ds /\
    Forall (fun d => (d <=? Simple.max_delay Simple.default)%float = true) ds.
Proof.
  apply (timers_nondecreasing_and_capped 4 Simple.default some_connection
           (fresh_world true 0.375)); try reflexivity.
  intro k. split; reflexivity.
Defined.

(** ** What is announced is what is requested *)

Lemma invoke_reported :
  forall (h : Hook) (self : Simple.t) (w : World),
    exists self' w' ds,
      invoke h self w = Returned self' w' /\
      delays w' = delays w ++ ds /\
      reported_delays (log w') = reported_delays (log w) ++ ds /\
      (ds = [] \/ ds = [Simple.current_delay self']).
Proof.
  intros h self w.
  destruct h as [conn|conn err|conn|conn|conn|conn]; cbn [invoke].
  - eexists. exists w, []. split; [reflexivity|]. rewrite !app_nil_r. auto.
  - eexists. eexists. exists []. split; [reflexivity|].
    unfold delays, reported_delays. cbn. rewrite flat_map_app. cbn.
    rewrite !app_nil_r. auto.
  - exists self, w, []. rewrite !app_nil_r. auto.
  - exists self, w, []. rewrite !app_nil_r. auto.
  - eexists. exists w, []. split; [reflexivity|]. rewrite !app_nil_r. auto.
  - change (on_connection_closed self conn w)
      with (Simple.on_connection_closed self conn w).
    unfold Simple.on_connection_closed, bind, ReconnectionStrategy.is_active.
    destruct (_active w) eqn:Hon; cbn.
    + eexists. eexists.
      exists [py_min (Simple.max_delay self)
                (Simple.current_delay self *
                 (draws w (drawn w) * Simple.jitter self + 1) *
                 Simple.multiplier self)%float].
      split; [reflexivity|].
      unfold delays, reported_delays.
      cbn [_active draws drawn timeouts log with_timeouts with_log with_drawn].
      rewrite map_app, flat_map_app. cbn. auto.
    + exists self, w, []. rewrite !app_nil_r. auto.
Qed.

(** X8: over any sequence of hook invocations on a
    [SimpleReconnectionStrategy], the delays announced at info level are, in
    the same order, the delays of the timers requested. *)
Theorem reported_delays_are_requested :
  forall (hs : list Hook) (self : Simple.t) (w : World),
    exists self' w' ds,
      invoke_all hs self w = Returned self' w' /\
      delays w' = delays w ++ ds /\
      reported_delays (log w') = reported_delays (log w) ++ ds.
Proof.
  induction hs as [|h hs IH]; intros self w.
  - exists self, w, []. rewrite !app_nil_r. auto.
  - destruct (invoke_reported h self w) as (s1 & w1 & d1 & E1 & T1 & R1 & _).
    destruct (IH s1 w1) as (s2 & w2 & d2 & E2 & T2 & R2).
    exists s2, w2, (d1 ++ d2).
    cbn [invoke_all]. unfold bind. rewrite E1.
    split; [exact E2|].
    rewrite T2, T1, R2, R1, !app_assoc. auto.
Qed.

(** * Attributes that are integers *)

(** ** On float attributes, [Py] is the float class *)

Lemma py_min_floats :
  forall (a t : float), Py.py_min (Py.Float a) t = Py.Float (py_min a t).
Proof.
  intros a t. unfold Py.py_min, py_min, Py.float_ltb.
  destruct (t <? a)%float; reflexivity.
Qed.

Lemma py_invoke_floats :
  forall (h : Hook) (s : Simple.t) (w : World),
    Py.invoke h (py_instance s) (py_world w) = py_outcome (invoke h s w).
Proof.
  intros h s w.
  destruct h as [conn|conn err|conn|conn|conn|conn]; cbn [invoke Py.invoke];
    try reflexivity.
  - unfold Py.on_connect_attempt_failure, Py.bind, Py.warning, Py.ret, py_world, Py.with_log.
    cbn. unfold py_world, with_log. cbn. rewrite map_app. reflexivity.
  - change (on_connection_closed s conn w) with (Simple.on_connection_closed s conn w).
    unfold Simple.on_connection_closed, bind, ReconnectionStrategy.is_active,
      Py.on_connection_closed.
    cbn [py_world Py._active].
    destruct (_active w) eqn:Hon; cbn [negb]; [|reflexivity].
    unfold Py.new_delay, Py.bind, Py.random, Py.as_float, Py.ret, Py.info, Py.add_timeout,
      Py.with_drawn, Py.with_log, Py.with_timeouts.
    cbn. unfold py_world, with_log, with_timeouts, with_drawn. cbn.
    rewrite py_min_floats, !map_app. reflexivity.
Qed.

(** Any sequence of hooks on an instance of the float class runs in [Py] as it
    does in the float class. *)
Lemma py_invoke_all_floats :
  forall (hs : list Hook) (s : Simple.t) (w : World),
    Py.invoke_all hs (py_instance s) (py_world w) = py_outcome (invoke_all hs s w).
Proof.
  induction hs as [|h hs IH]; intros s w; [reflexivity|].
  cbn [invoke_all Py.invoke_all]. unfold bind, Py.bind.
  rewrite py_invoke_floats.
  destruct (invoke h s w) as [s1 w1|e w1]; cbn [py_outcome]; [apply IH|reflexivity].
Qed.

(** ** Exceptions *)

Lemma py_as_float_fits :
  forall (n : Py.Num) (w : Py.World),
    Py.fits n = true -> exists x, Py.as_float n w = Py.Returned x w.
Proof.
  intros [k|x] w H; cbn [Py.as_float Py.fits] in *.
  - destruct (Py.float_of_int k) as [e|x]; [discriminate H|]. now exists x.
  - now exists x.
Qed.

Lemma py_min_fits :
  forall (a : Py.Num) (t : float), Py.fits a = true -> Py.fits (Py.py_min a t) = true.
Proof.
  intros a t H. unfold Py.py_min. destruct (Py.float_ltb t a); [reflexivity|exact H].
Qed.

(** One hook on an instance whose numbers all convert: it returns, and the
    numbers of the instance it leaves all convert. *)
Lemma py_invoke_returns :
  forall (h : Hook) (self : Py.t) (w : Py.World),
    Py.numbers_fit self = true ->
    exists self' w',
      Py.invoke h self w = Py.Returned self' w' /\ Py.numbers_fit self' = true.
Proof.
  intros h self w H.
  pose proof H as H'. unfold Py.numbers_fit in H'.
  apply andb_true_iff in H'. destruct H' as [H' Hc].
  apply andb_true_iff in H'. destruct H' as [H' Hj].
  apply andb_true_iff in H'. destruct H' as [H' Hx].
  apply andb_true_iff in H'. destruct H' as [Hi Hm].
  destruct h as [conn|conn err|conn|conn|conn|conn]; cbn [Py.invoke].
  - eexists. eexists. split; [reflexivity|]. exact H.
  - eexists. eexists. split; [reflexivity|]. exact H.
  - exists self, w. split; [reflexivity|exact H].
  - exists self, w. split; [reflexivity|exact H].
  - eexists. eexists. split; [reflexivity|].
    unfold Py.numbers_fit. cbn. now rewrite Hi, Hm, Hx, Hj.
  - unfold Py.on_connection_closed.
    destruct (Py._active w); cbn [negb]; [|exists self, w; split; [reflexivity|exact H]].
    unfold Py.new_delay, Py.bind at 1 2 3 4 5. cbn [Py.random].
    destruct (py_as_float_fits (Py.jitter self)
                (Py.with_drawn (S (Py.drawn w)) w)) as (j & ->); [assumption|].
    destruct (py_as_float_fits (Py.current_delay self)
                (Py.with_drawn (S (Py.drawn w)) w)) as (c & ->); [assumption|].
    destruct (py_as_float_fits (Py.multiplier self)
                (Py.with_drawn (S (Py.drawn w)) w)) as (m & ->); [assumption|].
    eexists. eexists. split; [reflexivity|].
    unfold Py.numbers_fit. cbn.
    rewrite py_min_fits by assumption.
    now rewrite Hi, Hm, Hx, Hj.
Qed.

(** C8, as amended: the collaborators returning as the spec describes them,
    no hook raises as long as the five numeric attributes are floats or
    integers that convert to a float: any sequence of hook invocations on such
    a [SimpleReconnectionStrategy] returns and leaves such an instance; any
    sequence on a [NullReconnectionStrategy] returns; and
    [on_connect_attempt_failure] returns the instance it was called on after
    handing [err] to the warning channel, without a timer. *)
Theorem hooks_return_when_numbers_convert :
  forall (hs : list Hook) (self : Py.t) (w : Py.World) (null : Null.t) (w0 : World)
         (conn : Connection) (err : Exn),
    Py.numbers_fit self = true ->
    (exists self' w',
       Py.invoke_all hs self w = Py.Returned self' w' /\ Py.numbers_fit self' = true) /\
    (exists null' w0', invoke_all hs null w0 = Returned null' w0') /\
    (exists w' r,
       Py.invoke (ConnectAttemptFailure conn err) self w = Py.Returned self w' /\
       Py.log w' = Py.log w ++ [r] /\
       Py.log_level r = WARNING /\
       In (Py.ArgExn err) (Py.log_args r) /\
       Py.timeouts w' = Py.timeouts w).
Proof.
  intros hs self w null w0 conn err H.
  split; [|split].
  - revert self w H. induction hs as [|h hs IH]; intros self w H.
    + exists self, w. split; [reflexivity|exact H].
    + destruct (py_invoke_returns h self w H) as (s1 & w1 & E1 & H1).
      cbn [Py.invoke_all]. unfold Py.bind. rewrite E1. apply IH, H1.
  - exists null, w0. induction hs as [|h hs IH]; [reflexivity|].
    cbn [invoke_all]. unfold bind. rewrite invoke_null. exact IH.
  - eexists. eexists. split; [reflexivity|]. cbn.
    split; [reflexivity|]. split; [reflexivity|]. split; [|reflexivity].
    right. left. reflexivity.
Qed.

Lemma hooks_return_when_numbers_convert_witness :
  (exists self' w',
     Py.invoke_all
       [ConnectAttempt some_connection;
        ConnectAttemptFailure some_connection (Exception "timed out");
        ConnectionClosed some_connection; ConnectionOpen some_connection;
        ConnectionClosed some_connection]
       (Py.__init__ (Py.Int 1) (Py.Int 2) (Py.Int 30) (Py.Float 0.5))
       (Py.fresh_world true 0.75) = Py.Returned self' w' /\
     Py.numbers_fit self' = true) /\
  (exists null' w0',
     invoke_all
       [ConnectAttempt some_connection;
        ConnectAttemptFailure some_connection (Exception "timed out");
        ConnectionClosed some_connection; ConnectionOpen some_connection;
        ConnectionClosed some_connection]
       Null.instance (fresh_world true 0.75) = Returned null' w0') /\
  (exists w' r,
     Py.invoke (ConnectAttemptFailure some_connection (Exception "refused"))
       (Py.__init__ (Py.Int 1) (Py.Int 2) (Py.Int 30) (Py.Float 0.5))
       (Py.fresh_world true 0.75) =
       Py.Returned (Py.__init__ (Py.Int 1) (Py.Int 2) (Py.Int 30) (Py.Float 0.5)) w' /\
     Py.log w' = Py.log (Py.fresh_world true 0.75) ++ [r] /\
     Py.log_level r = WARNING /\
     In (Py.ArgExn (Exception "refused")) (Py.log_args r) /\
     Py.timeouts w' = Py.timeouts (Py.fresh_world true 0.75)).
Proof.
  apply (hooks_return_when_numbers_convert
           [ConnectAttempt some_connection;
            ConnectAttemptFailure some_connection (Exception "timed out");
            ConnectionClosed some_connection; ConnectionOpen some_connection;
            ConnectionClosed some_connection]
           (Py.__init__ (Py.Int 1) (Py.Int 2) (Py.Int 30) (Py.Float 0.5))
           (Py.fresh_world true 0.75) Null.instance (fresh_world true 0.75)
           some_connection (Exception "refused")).
  vm_compute. reflexivity.
Defined.

(** C8, as first stated, fails on an integer attribute too large for a float:
    with [jitter = 2 ** 1024], the first active closure draws a number and
    raises [OverflowError] from the product [random() * self.jitter]; with
    [max_delay = 2 ** 1024] and an infinite product, the first closure stores
    [max_delay] and the second one raises. *)
Lemma closure_raises_on_large_int :
  Py.on_connection_closed
    (Py.__init__ (Py.Float 1.0) (Py.Float 2.0) (Py.Float 30.0) (Py.Int (2 ^ 1024)))
    some_connection (Py.fresh_world true 0.25) =
    Py.Raised Py.OverflowError (Py.with_drawn 1 (Py.fresh_world true 0.25)) /\
  (exists w',
     Py.invoke_all [ConnectionClosed some_connection; ConnectionClosed some_connection]
       (Py.__init__ (Py.Float infinity) (Py.Float 2.0) (Py.Int (2 ^ 1024)) (Py.Float 0.5))
       (Py.fresh_world true 0.25) = Py.Raised Py.OverflowError w') /\
  ~ (forall (h : Hook) (self : Py.t) (w : Py.World),
       exists self' w', Py.invoke h self w = Py.Returned self' w').
Proof.
  split; [vm_compute; reflexivity|].
  split; [eexists; vm_compute; reflexivity|].
  intro H.
  destruct (H (ConnectionClosed some_connection)
              (Py.__init__ (Py.Float 1.0) (Py.Float 2.0) (Py.Float 30.0) (Py.Int (2 ^ 1024)))
              (Py.fresh_world true 0.25)) as (self' & w' & E).
  vm_compute in E. discriminate E.
Qed.

(** ** Rounding of integers *)

(** Why C9, X5 and X7 are about float attributes: an integer above [2 ** 53]
    is rounded when the product converts it. With every attribute equal to
    the integer [2 ** 53 + 1], multiplier 1 and jitter 0, the first closure
    stores the float [2.0 ** 53], which is below the integer it replaces. *)
Lemma delay_decreases_on_large_ints :
  exists w',
    Py.on_connection_closed
      (Py.__init__ (Py.Int (2 ^ 53 + 1)) (Py.Int 1) (Py.Int (2 ^ 53 + 1)) (Py.Int 0))
      some_connection (Py.fresh_world true 0.25) =
      Py.Returned
        (Py.set_current_delay (Py.Float 9007199254740992.0)
           (Py.__init__ (Py.Int (2 ^ 53 + 1)) (Py.Int 1) (Py.Int (2 ^ 53 + 1)) (Py.Int 0)))
        w' /\
    Py.float_ltb 9007199254740992.0 (Py.Int (2 ^ 53 + 1)) = true.
Proof.
  eexists. split; vm_compute; reflexivity.
Qed.
